(** * ConvertTEMPLATE: the log parsers and the conversion drivers

    A shallow embedding of [conv/parser.py] and of
    [scripts/run_all_conversion.py], and the properties of the
    specification that are settled against it.  [scripts/convert_data.py]
    has no embedding: its text is not a Python program (the argument
    [start_time=task...,] of its line 157 is no expression), so the module
    does not compile and its function [convert_data] has no behaviour of
    its own.  The batch driver takes it as a parameter.

    Python values are modelled by value: [str] as [string], a [dict] with
    string keys as [gmap string _], a [list] as [list].  A function that
    may raise returns in the monad [M], which collects what is written to
    standard output and ends in a return value or in an exception. *)

From Stdlib Require Import Ascii.
From stdpp Require Import base option list gmap strings pretty.

Set Default Proof Using "Type".

(** ** Exceptions and the output/exception monad *)

Inductive exn : Type :=
  | AttributeError
  | IndexError
  | KeyError
  | NameError
  | UnboundLocalError
  | AssertionError
  | OtherError (name : string).

Inductive result (A : Type) : Type :=
  | Ok (a : A)
  | Raise (e : exn).
Arguments Ok {A} a.
Arguments Raise {A} e.

(** ** Settings

    [scripts/settings.py] is not among the sources; its tables are taken
    as the records below, with the keys the scripts read. *)

Record SESSION : Type := mkSESSION {
  SUBJECT : string;
  EXPERIMENT : string;
  SESSION_ID : string;          (* the key ['SESSION'] *)
}.

Record SETTINGS : Type := mkSETTINGS {
  VERBOSE : bool;
  ADD_LFP : bool;
  CHANGE_TIME_UNIT : bool;
  RESET_TIME : bool;
  DROP_BEFORE_TASK : bool;
  SKIP_ALREADY_RUN : bool;
}.

Record SKIP : Type := mkSKIP {
  SUBJECTS : list string;
  SESSIONS : list string;
}.

(** ** What a run does, as seen from outside *)

Inductive callee : Type := PrepareData | ConvertData.

(** [Call] records a call of the batch driver into the per-session
    pipeline together with everything the callee did. *)
#[warnings="-register-all"]
Inductive event : Type :=
  | Print (line : string)
  | PrintStatus (verbose : bool) (msg : string) (level : nat)
  | SaveNwb (session_name : string)
  | Call (f : callee) (sess : SESSION) (inner : list event).

Module Py.

(** A computation leaves a trace of events and then returns or raises. *)
Definition M (A : Type) : Type := list event * result A.

Definition raise {A} (e : exn) : M A := ([], Raise e).
Definition emit (ev : event) : M unit := ([ev], Ok tt).

Definition trace {A} (m : M A) : list event := fst m.
Definition outcome {A} (m : M A) : result A := snd m.

#[global] Instance M_ret : MRet M := λ A a, ([], Ok a).
#[global] Instance M_bind : MBind M := λ A B k m,
  match m with
  | (tr, Ok a) => let '(tr', r) := k a in (tr ++ tr', r)
  | (tr, Raise e) => (tr, Raise e)
  end.

(** [print(line)] *)
Definition print (line : string) : M unit := emit (Print line).

(** [print_status(verbose, msg, level)] of [conv/utils.py], which is not
    among the sources: the call is recorded with its arguments. *)
Definition print_status (verbose : bool) (msg : string) (level : nat)
  : M unit := emit (PrintStatus verbose msg level).

(** [for x in xs: body(x)] *)
Fixpoint for_each {A} (body : A → M unit) (xs : list A) : M unit :=
  match xs with
  | [] => mret tt
  | x :: rest => body x;; for_each body rest
  end.

End Py.
Import Py.

(** ** Strings *)

Definition TAB : ascii := "009"%char.
Definition LF : ascii := "010"%char.
Definition CR : ascii := "013"%char.

(** [s.replace('\r', '')] *)
Fixpoint remove_cr (s : string) : string :=
  match s with
  | EmptyString => EmptyString
  | String c s' =>
      if Ascii.eqb c CR then remove_cr s' else String c (remove_cr s')
  end.

(** [s[:-1]]: all but the final character; the empty string stays empty. *)
Fixpoint drop_last (s : string) : string :=
  match s with
  | EmptyString => EmptyString
  | String c s' =>
      match s' with
      | EmptyString => EmptyString
      | String _ _ => String c (drop_last s')
      end
  end.

(** [s.split(sep)] for a one-character separator: never empty, one more
    field than there are separators. *)
Fixpoint str_split (sep : ascii) (s : string) : list string :=
  match s with
  | EmptyString => [EmptyString]
  | String c s' =>
      if Ascii.eqb c sep then EmptyString :: str_split sep s'
      else match str_split sep s' with
           | f :: fs => String c f :: fs
           | [] => [String c EmptyString]
           end
  end.

(** [sep.join(fields)] *)
Fixpoint str_join (sep : ascii) (fields : list string) : string :=
  match fields with
  | [] => EmptyString
  | [f] => f
  | f :: fs => f +:+ String sep (str_join sep fs)
  end.

(** Python sequence indexing: [xs[i]] raises [IndexError] out of range. *)
Definition py_index {A} (xs : list A) (i : nat) : M A :=
  match xs !! i with
  | Some x => mret x
  | None => raise IndexError
  end.

(** [xs[-1]] *)
Definition py_index_last {A} (xs : list A) : M A :=
  match last xs with
  | Some x => mret x
  | None => raise IndexError
  end.

(** ** Text files

    [open(file_path, 'r')] reads in text mode with universal newlines:
    ["\r\n"] and a lone ["\r"] both arrive as ["\n"].  The content of a
    file is its text as decoded by [open]; a file whose bytes do not
    decode in the default encoding makes [readlines] raise
    [UnicodeDecodeError] and has no content in this sense. *)
Fixpoint universal_newlines (s : string) : string :=
  match s with
  | EmptyString => EmptyString
  | String c s' =>
      if Ascii.eqb c CR then
        String LF
          match s' with
          | String c' s'' =>
              if Ascii.eqb c' LF then universal_newlines s''
              else universal_newlines s'
          | EmptyString => EmptyString
          end
      else String c (universal_newlines s')
  end.

(** Lines with their terminator kept; a file that does not end in a
    newline has a last line without one. *)
Fixpoint split_keepends (s : string) : list string :=
  match s with
  | EmptyString => []
  | String c s' =>
      if Ascii.eqb c LF then String c EmptyString :: split_keepends s'
      else match split_keepends s' with
           | l :: ls => String c l :: ls
           | [] => [String c EmptyString]
           end
  end.

(** [fobj.readlines()] on a file with the given content. *)
Definition readlines (content : string) : list string :=
  split_keepends (universal_newlines content).

(** The two tokenising statements shared by both parsers:
    [line = line.replace('\r', '')] and [tokens = line[:-1].split('\t')]. *)
Definition tokenize (line : string) : list string :=
  let line := remove_cr line in
  str_split TAB (drop_last line).

(** ** The task record *)

(** Modelled from the spec: the class [Task] of [conv/task.py], which is
    not among the sources.  The specification describes it as a mutable
    aggregate of sub-maps: session metadata (start and end time stamps),
    the trial list, the continuous streams (position x, z, time and speed;
    head direction and its time) and the synchronisation time stamps
    (time, frame, on/off).  The attribute and key names are the ones the
    sources use.  The parsers store tokens of the log as they are, so every
    stream holds strings. *)
Record Task : Type := mkTask {
  session : gmap string string;
  trial : gmap string (list string);
  position : gmap string (list string);
  head_direction : gmap string (list string);
  sync_behavioral : gmap string (list string);
}.

(** Modelled from the spec: [Task()], the record "created empty at parse
    start": no session time stamp yet, every stream present and empty. *)
Definition Task_new : Task := {|
  session := ∅;
  trial := {[ "trial" := [] ]};
  position := {[ "x" := []; "z" := []; "time" := []; "speed" := [] ]};
  head_direction := {[ "degrees" := []; "time" := [] ]};
  sync_behavioral := {[ "time" := []; "frame" := []; "on_off" := [] ]};
|}.

(** The truth value of the name [Task] itself: it is bound to a class
    object, and a class object is true. *)
Definition Task_truthy : bool := true.

Definition with_session (s : gmap string string) (t : Task) : Task :=
  {| session := s; trial := trial t; position := position t;
     head_direction := head_direction t;
     sync_behavioral := sync_behavioral t |}.

Definition with_sync_behavioral (s : gmap string (list string)) (t : Task)
  : Task :=
  {| session := session t; trial := trial t; position := position t;
     head_direction := head_direction t; sync_behavioral := s |}.

(** Attribute access on the value of the variable [task], which is a
    record or [None]: [None] has no attributes. *)
Definition py_attr {A} (task : option Task) (field : Task → A) : M A :=
  match task with
  | Some t => mret (field t)
  | None => raise AttributeError
  end.

(** [task.session[key] = value]; the right-hand side has been evaluated
    by the caller. *)
Definition set_session (task : option Task) (key value : string)
  : M (option Task) :=
  s ← py_attr task session;
  match task with
  | Some t => mret (Some (with_session (<[key := value]> s) t))
  | None => raise AttributeError
  end.

(** [d[key]] on a dict: [KeyError] when the key is absent. *)
Definition py_getitem {A} (d : gmap string A) (key : string) : M A :=
  match d !! key with
  | Some v => mret v
  | None => raise KeyError
  end.

(** ** [conv/parser.py] *)

(** The body of the [for] loop of [parse_lines_log] for one line.  Both
    event branches of the source have the body [...], which does nothing. *)
Definition parse_log_line (ix : nat) (line : string) (task : option Task)
  : M (option Task) :=
  let tokens := tokenize line in
  if length tokens <=? 3 then
    print ("Unexpected line length at line " +:+ pretty ix);;
    mret task
  else
    time ← py_index tokens 0;
    frame ← py_index tokens 1;
    event ← py_index tokens 2;
    subevent ← py_index tokens 3;
    (if String.eqb event "THINGS" then mret tt else mret tt);;
    (if String.eqb event "THINGS" then mret tt else mret tt);;
    mret task.

(** [for ix, line in enumerate(...)], from index [ix] on. *)
Fixpoint parse_log_loop (ix : nat) (lines : list string)
    (task : option Task) : M (option Task) :=
  match lines with
  | [] => mret task
  | line :: rest =>
      task ← parse_log_line ix line task;
      parse_log_loop (S ix) rest task
  end.

(** [parse_lines_log(file_path, task=None)], on the content of the file at
    [file_path].  In an assignment the right-hand side is evaluated before
    the target. *)
Definition parse_lines_log (file : string) (task : option Task)
  : M (option Task) :=
  let task := if negb Task_truthy then Some Task_new else task in
  let trial_counter := 0 in
  let lines := readlines file in
  first ← py_index lines 0;
  start_time ← py_index (str_split TAB first) 0;
  task ← set_session task "start_time" start_time;
  final ← py_index_last lines;
  end_time ← py_index (str_split TAB final) 0;
  task ← set_session task "end_time" end_time;
  let n_lines := length lines in
  parse_log_loop 0 (readlines file) task.

(** [task.sync_behavioral[key].append(value)]: the list is looked up
    before the argument [tokens[i]] is evaluated. *)
Definition sync_append (task : option Task) (key : string)
    (tokens : list string) (i : nat) : M (option Task) :=
  d ← py_attr task sync_behavioral;
  stream ← py_getitem d key;
  value ← py_index tokens i;
  match task with
  | Some t =>
      mret (Some (with_sync_behavioral (<[key := stream ++ [value]]> d) t))
  | None => raise AttributeError
  end.

Definition parse_sync_line (line : string) (task : option Task)
  : M (option Task) :=
  let tokens := tokenize line in
  task ← sync_append task "time" tokens 0;
  task ← sync_append task "frame" tokens 1;
  sync_append task "on_off" tokens 2.

Fixpoint parse_sync_loop (lines : list string) (task : option Task)
  : M (option Task) :=
  match lines with
  | [] => mret task
  | line :: rest =>
      task ← parse_sync_line line task;
      parse_sync_loop rest task
  end.

(** [parse_lines_sync(file_path, task=None)] *)
Definition parse_lines_sync (file : string) (task : option Task)
  : M (option Task) :=
  let task := if negb Task_truthy then Some Task_new else task in
  parse_sync_loop (readlines file) task.

(** Name lookup in [process_session].  A name that the function assigns
    to is one of its locals, and reading it before any assignment raises
    [UnboundLocalError].  Any other name is looked up at module level:
    [parser_globals] are the names of [conv/parser.py] that hold plain
    values, and there are none ([file_path] and [verbose] are bound
    nowhere). *)
Definition read_local {A} (binding : option A) : M A :=
  match binding with
  | Some v => mret v
  | None => raise UnboundLocalError
  end.

Definition parser_globals : gmap string string := ∅.

Definition read_global (name : string) : M string :=
  match parser_globals !! name with
  | Some v => mret v
  | None => raise NameError
  end.

Section ProcessSession.

(** The content of the file at a path, and [process_task] of
    [conv/process.py], which is not among the sources. *)
Variable read_file : string → string.
Variable process_task : option Task → M (option Task).

(** The body of [process_session], from a given binding [task0] of its
    local [task] ([None]: unbound). *)
Definition process_session_body (task0 : option (option Task))
    (file_path_log : string) (process : bool) : M (option Task) :=
  task ← read_local task0;
  let task := match task with None => Some Task_new | Some _ => task end in
  file_path ← read_global "file_path";
  task ← parse_lines_log (read_file file_path) None;
  verbose ← read_global "verbose";
  print_status (bool_decide (verbose ≠ "")) "parsing completed..." 1;;
  task ← (if process then process_task task else mret task);
  mret task.

(** [process_session(file_path_log, process=False)]: on entry only the
    two parameters are bound. *)
Definition process_session (file_path_log : string) (process : bool)
  : M (option Task) :=
  process_session_body None file_path_log process.

End ProcessSession.

(** ** [scripts/run_all_conversion.py] *)

(** [d[key] = value] on a dict, which keeps insertion order. *)
Fixpoint dict_set {V} (key : string) (value : V) (d : list (string * V))
  : list (string * V) :=
  match d with
  | [] => [(key, value)]
  | (k, v) :: d' =>
      if String.eqb k key then (key, value) :: d'
      else (k, v) :: dict_set key value d'
  end.

(** The driver calls into the pipeline; what the callee does is kept
    inside the [Call] event. *)
Definition call (f : callee) (sess : SESSION) (m : M unit) : M unit :=
  ([Call f sess (trace m)], outcome m).

Section RunAll.

Variable make_session_name : string → string → string → string.
Variable EXPERIMENT_ : string.
Variable ST : SETTINGS.
Variable SK : SKIP.

(** The three directory listings: [get_files(paths.recordings)],
    [get_files(paths.recordings / subject / EXPERIMENT, select='session')]
    and [get_files(paths.nwb, select='nwb')]. *)
Variable subjects : list string.
Variable sessions_of : string → list string.
Variable converted : list string.

(** [prepare_data] of [scripts/prepare_data.py], which is not among the
    sources, and [convert_data] of [scripts/convert_data.py], whose text
    does not compile: both are whatever the caller supplies. *)
Variable prepare_data : SESSION → SETTINGS → M unit.
Variable convert_data' : SESSION → SETTINGS → M unit.

Definition all_sessions : list (string * list string) :=
  foldl (λ d subject, dict_set subject (sessions_of subject) d)
    [] subjects.

(** [# Prepare data] and [# Run data conversion] *)
Definition pipeline (sess : SESSION) : M unit :=
  call PrepareData sess (prepare_data sess ST);;
  call ConvertData sess (convert_data' sess ST).

Definition run_session (subject session : string) : M unit :=
  let sess := {| SUBJECT := subject; EXPERIMENT := EXPERIMENT_;
              SESSION_ID := session |} in
  let session_name :=
    make_session_name (SUBJECT sess) (EXPERIMENT sess) (SESSION_ID sess) in
  if bool_decide (session_name ∈ SESSIONS SK) then
    print_status (VERBOSE ST)
      ("SKIPPING SESSION: " +:+ String TAB session_name) 0
  else if SKIP_ALREADY_RUN ST
          && bool_decide (session_name +:+ ".nwb" ∈ converted) then
    print_status (VERBOSE ST)
      ("SESSION ALREADY RUN: " +:+ String TAB session_name) 0
  else
    pipeline sess.

Definition run_subject (item : string * list string) : M unit :=
  let '(subject, sessions) := item in
  if bool_decide (subject ∈ SUBJECTS SK) then
    print_status (VERBOSE ST)
      ("SKIPPING SUBJECT: " +:+ String TAB subject) 0
  else
    for_each (run_session subject) sessions.

Definition run_all_conversions : M unit :=
  let NLNL := String LF (String LF EmptyString) in
  print_status (VERBOSE ST)
    (NLNL +:+ "RUNNING ALL CONVERSIONS FOR - " +:+ EXPERIMENT_ +:+ NLNL) 0;;
  for_each run_subject all_sessions;;
  print_status (VERBOSE ST)
    (NLNL +:+ " FINISHED CONVERSIONS FOR - " +:+ EXPERIMENT_ +:+ NLNL) 0.

End RunAll.

(** ** Vocabulary of the specification *)

(** The characters of a line before its first tab: its leading field. *)
Fixpoint leading_field (s : string) : string :=
  match s with
  | EmptyString => EmptyString
  | String c s' =>
      if Ascii.eqb c TAB then EmptyString else String c (leading_field s')
  end.

(** Whether a character occurs in a string. *)
Fixpoint occurs (c : ascii) (s : string) : bool :=
  match s with
  | EmptyString => false
  | String c' s' => Ascii.eqb c' c || occurs c s'
  end.

(** A string with one more character at its end. *)
Definition snoc (s : string) (c : ascii) : string :=
  s +:+ String c EmptyString.

(** The diagnostic printed for line number [ix]. *)
Definition diagnostic (ix : nat) : event :=
  Print ("Unexpected line length at line " +:+ pretty ix).

(** A line is malformed when it has fewer than four tokens. *)
Definition malformed (line : string) : bool := length (tokenize line) <? 4.

(** The diagnostics a file gives rise to, numbering its lines from [ix]. *)
Fixpoint diagnostics (ix : nat) (lines : list string) : list event :=
  match lines with
  | [] => []
  | line :: rest =>
      (if malformed line then [diagnostic ix] else [])
      ++ diagnostics (S ix) rest
  end.

(** A position-event line: time, frame, ["POSITION"] and at least two more
    tokens. *)
Definition position_line (line : string) : bool :=
  match tokenize line with
  | _ :: _ :: ev :: _ :: _ :: _ => String.eqb ev "POSITION"
  | _ => false
  end.

(** The [i]-th token of a line, the empty string if it has none. *)
Definition field (i : nat) (line : string) : string :=
  default EmptyString (tokenize line !! i).

(** The three sync streams of a record. *)
Definition sync_streams (t : Task) (time frame on_off : list string)
  : Prop :=
  sync_behavioral t !! "time" = Some time
  ∧ sync_behavioral t !! "frame" = Some frame
  ∧ sync_behavioral t !! "on_off" = Some on_off.

(** The record after the two session assignments of [parse_lines_log]. *)
Definition with_session_times (start_time end_time : string) (t : Task)
  : Task :=
  with_session
    (<["end_time" := end_time]> (<["start_time" := start_time]> (session t)))
    t.

(** The calls into the pipeline that a trace shows, in order. *)
Fixpoint calls_of (tr : list event) : list (callee * SESSION) :=
  match tr with
  | [] => []
  | Call f sess _ :: tr' => (f, sess) :: calls_of tr'
  | _ :: tr' => calls_of tr'
  end.

(** What the driver's claims speak of: the calls made and the outcome. *)
Definition obs {A} (m : M A) : list (callee * SESSION) * result A :=
  (calls_of (trace m), outcome m).

(** Both calls of the pipeline, for each session of a list. *)
Definition pipeline_calls (ss : list SESSION) : list (callee * SESSION) :=
  ss ≫= λ sess, [(PrepareData, sess); (ConvertData, sess)].

Section Selection.

Variable make_session_name : string → string → string → string.
Variable EXPERIMENT_ : string.
Variable ST : SETTINGS.
Variable SK : SKIP.
Variable converted : list string.

Definition session_of (subject session : string) : SESSION :=
  {| SUBJECT := subject; EXPERIMENT := EXPERIMENT_;
     SESSION_ID := session |}.

Definition name_of (sess : SESSION) : string :=
  make_session_name (SUBJECT sess) (EXPERIMENT sess) (SESSION_ID sess).

(** A pair is skipped when its subject is in the skip-subjects list, its
    session name is in the skip-sessions list, or [SKIP_ALREADY_RUN] is
    set and its output file is among the converted files. *)
Definition skipped (sess : SESSION) : bool :=
  bool_decide (SUBJECT sess ∈ SUBJECTS SK)
  || bool_decide (name_of sess ∈ SESSIONS SK)
  || (SKIP_ALREADY_RUN ST
      && bool_decide (name_of sess +:+ ".nwb" ∈ converted)).

(** The enumerated (subject, session) pairs, in the order of the
    listing, and those of them that are not skipped. *)
Definition enumerated (listing : list (string * list string))
  : list SESSION :=
  listing ≫= λ item, session_of item.1 <$> item.2.

Definition selected (listing : list (string * list string))
  : list SESSION :=
  filter (λ sess, skipped sess = false) (enumerated listing).

End Selection.

(** ** Example files *)

(** One line of a tab-separated file, with its newline. *)
Definition row (fields : list string) : string :=
  str_join TAB fields +:+ String LF EmptyString.

(** The end-to-end example of the specification. *)
Definition example_log : string :=
  row ["0"; "1"; "POSITION"; "0"; "1.0"; "2.0"]
  +:+ row ["100"; "2"; "POSITION"; "0"; "1.5"; "2.5"].

(** A log with a good line between two malformed ones. *)
Definition ragged_log : string :=
  row ["7"; "oops"] +:+ row ["8"; "1"; "EVENT"; "sub"] +:+ row [].

(** A sync file of three pulses. *)
Definition example_sync : string :=
  row ["10"; "1"; "on"] +:+ row ["20"; "2"; "off"] +:+ row ["30"; "3"; "on"].

(** ** An example batch

    Three subjects with two sessions each.  Subject [sub3] is on the
    skip-subjects list, session [sub1_EXP_session_1] on the skip-sessions
    list, and [sub2_EXP_session_0] has been converted already, which leaves
    [sub1]/[session_0] and [sub2]/[session_1] to run. *)
Definition demo_name (subject experiment session : string) : string :=
  subject +:+ "_" +:+ experiment +:+ "_" +:+ session.

Definition demo_settings : SETTINGS := {|
  VERBOSE := true; ADD_LFP := false; CHANGE_TIME_UNIT := true;
  RESET_TIME := true; DROP_BEFORE_TASK := true; SKIP_ALREADY_RUN := true;
|}.

Definition demo_skip : SKIP := {|
  SUBJECTS := ["sub3"]; SESSIONS := ["sub1_EXP_session_1"];
|}.

Definition demo_subjects : list string := ["sub1"; "sub2"; "sub3"].

Definition demo_sessions (subject : string) : list string :=
  ["session_0"; "session_1"].

Definition demo_converted : list string := ["sub2_EXP_session_0.nwb"].

Definition demo_first : SESSION :=
  {| SUBJECT := "sub1"; EXPERIMENT := "EXP"; SESSION_ID := "session_0" |}.

Definition demo_second : SESSION :=
  {| SUBJECT := "sub2"; EXPERIMENT := "EXP"; SESSION_ID := "session_1" |}.

(** A pipeline stage that returns at once. *)
Definition demo_stage (sess : SESSION) (ST : SETTINGS) : M unit := mret tt.

(** ** Further vocabulary *)

(** How often a character occurs in a string. *)
Fixpoint count_char (c : ascii) (s : string) : nat :=
  match s with
  | EmptyString => 0
  | String c' s' => (if Ascii.eqb c' c then 1 else 0) + count_char c s'
  end.

(** The first and the last status message of the batch driver. *)
Definition running_banner (experiment : string) : string :=
  let NLNL := String LF (String LF EmptyString) in
  NLNL +:+ "RUNNING ALL CONVERSIONS FOR - " +:+ experiment +:+ NLNL.

Definition finished_banner (experiment : string) : string :=
  let NLNL := String LF (String LF EmptyString) in
  NLNL +:+ " FINISHED CONVERSIONS FOR - " +:+ experiment +:+ NLNL.

(** A computation that, when it raises, does so inside a call into the
    pipeline: the call is the last thing its trace shows. *)
Definition raises_in_call (m : M unit) : Prop :=
  ∀ e, outcome m = Raise e →
    ∃ tr f sess inner, trace m = tr ++ [Call f sess inner].

(** A pipeline stage that fails. *)
Definition demo_failing_stage (sess : SESSION) (ST : SETTINGS) : M unit :=
  raise (OtherError "OSError").

(** The example settings with [SKIP_ALREADY_RUN] unset. *)
Definition demo_settings_rerun : SETTINGS := {|
  VERBOSE := true; ADD_LFP := false; CHANGE_TIME_UNIT := true;
  RESET_TIME := true; DROP_BEFORE_TASK := true; SKIP_ALREADY_RUN := false;
|}.

(** * Properties *)

(** ** The monad *)

Lemma bind_Ok {A B} (tr : list event) (a : A) (k : A → M B) :
  (tr, Ok a) ≫= k = (tr ++ trace (k a), outcome (k a)).
Proof. unfold mbind, M_bind. by destruct (k a). Qed.

Lemma bind_Raise {A B} (tr : list event) (e : exn) (k : A → M B) :
  (tr, Raise e) ≫= k = (tr, Raise e).
Proof. done. Qed.

Lemma bind_mret {A B} (a : A) (k : A → M B) : mret a ≫= k = k a.
Proof. unfold mret, M_ret. rewrite bind_Ok. by destruct (k a). Qed.

Lemma bind_raise {A B} (e : exn) (k : A → M B) : raise e ≫= k = raise e.
Proof. done. Qed.

Lemma bind_emit {B} (ev : event) (k : unit → M B) :
  emit ev ≫= k = (ev :: trace (k tt), outcome (k tt)).
Proof. unfold emit. by rewrite bind_Ok. Qed.

Lemma M_eta {A} (m : M A) : m = (trace m, outcome m).
Proof. by destruct m. Qed.

(** ** Splitting and joining *)

Lemma str_split_cons (sep : ascii) (s : string) :
  ∃ f fs, str_split sep s = f :: fs.
Proof.
  destruct s as [|c s]; simpl; [by eauto|].
  destruct (Ascii.eqb c sep); [by eauto|].
  destruct (str_split sep s); eauto.
Qed.

Lemma str_split_head (s : string) :
  str_split TAB s !! 0 = Some (leading_field s).
Proof.
  induction s as [|c s IH]; simpl; [done|].
  destruct (Ascii.eqb c TAB); [done|].
  destruct (str_split TAB s) as [|f fs]; simpl in *; [done|].
  by simplify_eq.
Qed.

Lemma py_index_Some {A} (xs : list A) (i : nat) (x : A) :
  xs !! i = Some x → py_index xs i = mret x.
Proof. unfold py_index. by intros ->. Qed.

Lemma py_index_None {A} (xs : list A) (i : nat) :
  xs !! i = None → py_index xs i = raise IndexError.
Proof. unfold py_index. by intros ->. Qed.

Lemma py_index_split_0 (s : string) :
  py_index (str_split TAB s) 0 = mret (leading_field s).
Proof. unfold py_index. by rewrite str_split_head. Qed.

(** ** [parse_lines_log]: the loop *)

Lemma malformed_leb (line : string) :
  (length (tokenize line) <=? 3) = malformed line.
Proof.
  unfold malformed.
  destruct (Nat.leb_spec (length (tokenize line)) 3),
    (Nat.ltb_spec (length (tokenize line)) 4); done || lia.
Qed.

(** One line leaves the record as it is, and prints exactly when the line
    is malformed. *)
Lemma parse_log_line_spec (ix : nat) (line : string) (task : option Task) :
  parse_log_line ix line task
  = (if malformed line then [diagnostic ix] else [], Ok task).
Proof.
  unfold parse_log_line. rewrite malformed_leb.
  destruct (malformed line) eqn:Hm.
  - unfold print. by rewrite bind_emit.
  - unfold malformed in Hm. apply Nat.ltb_ge in Hm.
    destruct (tokenize line) as [|t0 [|t1 [|t2 [|t3 ts]]]];
      simpl in Hm; try lia.
    rewrite (py_index_Some _ 0 t0), bind_mret by done.
    rewrite (py_index_Some _ 1 t1), bind_mret by done.
    rewrite (py_index_Some _ 2 t2), bind_mret by done.
    rewrite (py_index_Some _ 3 t3), bind_mret by done.
    by destruct (String.eqb t2 "THINGS"); rewrite !bind_mret.
Qed.

Lemma parse_log_loop_spec (lines : list string) (ix : nat)
    (task : option Task) :
  parse_log_loop ix lines task = (diagnostics ix lines, Ok task).
Proof.
  revert ix. induction lines as [|line rest IH]; intros ix; simpl; [done|].
  by rewrite parse_log_line_spec, bind_Ok, IH.
Qed.

(** ** [parse_lines_log]: the whole function, given a record *)

Lemma readlines_nonempty (file : string) :
  file ≠ EmptyString → readlines file ≠ [].
Proof.
  unfold readlines. intros Hne.
  assert (universal_newlines file ≠ EmptyString) as Hu.
  { destruct file as [|c s]; [done|]. simpl.
    by destruct (Ascii.eqb c CR). }
  destruct (universal_newlines file) as [|c s]; [done|]. simpl.
  destruct (Ascii.eqb c LF); [done|].
  by destruct (split_keepends s).
Qed.

Lemma readlines_empty : readlines EmptyString = [].
Proof. done. Qed.

Lemma set_session_Some (t : Task) (key value : string) :
  set_session (Some t) key value
  = mret (Some (with_session (<[key := value]> (session t)) t)).
Proof. unfold set_session, py_attr. by rewrite bind_mret. Qed.

Lemma parse_lines_log_given (file : string) (t : Task)
    (first final : string) :
  head (readlines file) = Some first →
  last (readlines file) = Some final →
  parse_lines_log file (Some t)
  = (diagnostics 0 (readlines file),
     Ok (Some (with_session_times (leading_field first)
                 (leading_field final) t))).
Proof.
  intros Hfirst Hfinal. unfold parse_lines_log, Task_truthy.
  cbn [negb]. cbv zeta iota.
  rewrite (py_index_Some _ 0 first), bind_mret by by rewrite <-head_lookup.
  rewrite py_index_split_0, bind_mret.
  rewrite set_session_Some, bind_mret.
  unfold py_index_last. rewrite Hfinal, bind_mret.
  rewrite py_index_split_0, bind_mret.
  rewrite set_session_Some, bind_mret.
  by rewrite parse_log_loop_spec.
Qed.

Lemma parse_lines_log_empty (task : option Task) :
  parse_lines_log EmptyString task = ([], Raise IndexError).
Proof. done. Qed.

Lemma diagnostics_elem (lines : list string) (ix0 i : nat) (line : string) :
  lines !! i = Some line → malformed line = true →
  diagnostic (ix0 + i) ∈ diagnostics ix0 lines.
Proof.
  revert ix0 i. induction lines as [|l rest IH]; intros ix0 i Hi Hm; [done|].
  destruct i as [|i]; simpl in *.
  - simplify_eq. rewrite Hm, Nat.add_0_r. set_solver.
  - apply elem_of_app; right.
    replace (ix0 + S i) with (S ix0 + i) by lia. by apply IH.
Qed.

(** C1: for a log file with at least one line, [parse_lines_log], given a
    task record, returns the record with the session start time set to the
    leading tab-separated field of the first line of the file and the
    session end time set to the leading field of the last line. *)
Theorem session_times_first_last (file : string) (t : Task)
    (first final : string) :
  head (readlines file) = Some first →
  last (readlines file) = Some final →
  ∃ t', outcome (parse_lines_log file (Some t)) = Ok (Some t')
    ∧ session t' !! "start_time" = Some (leading_field first)
    ∧ session t' !! "end_time" = Some (leading_field final)
    ∧ str_split TAB first !! 0 = session t' !! "start_time"
    ∧ str_split TAB final !! 0 = session t' !! "end_time".
Proof.
  intros Hfirst Hfinal.
  rewrite (parse_lines_log_given file t first final) by done.
  eexists; split; [done|]. rewrite !str_split_head. simpl.
  by rewrite lookup_insert_eq, lookup_insert_ne, lookup_insert_eq.
Qed.

Lemma session_times_first_last_witness :
  ∃ t', outcome (parse_lines_log example_log (Some Task_new)) = Ok (Some t')
    ∧ session t' !! "start_time" = Some "0"
    ∧ session t' !! "end_time" = Some "100"
    ∧ Some "0" = session t' !! "start_time"
    ∧ Some "100" = session t' !! "end_time".
Proof.
  exact (session_times_first_last example_log Task_new
           (row ["0"; "1"; "POSITION"; "0"; "1.0"; "2.0"])
           (row ["100"; "2"; "POSITION"; "0"; "1.5"; "2.5"])
           eq_refl eq_refl).
Defined.

(** C2: a line of the log with fewer than four tokens makes the loop body
    print the diagnostic for its line number, leave the task record
    untouched and return without raising, after which the loop goes on with
    the next line; the whole parse then returns a record whose trial,
    position, head-direction and sync streams are those it was given. *)
Theorem malformed_line_skipped (file : string) (t : Task) (ix : nat)
    (line : string) :
  readlines file !! ix = Some line →
  length (tokenize line) < 4 →
  (∀ task, parse_log_line ix line task = ([diagnostic ix], Ok task))
  ∧ (∀ rest task,
       parse_log_loop ix (line :: rest) task
       = (diagnostic ix :: trace (parse_log_loop (S ix) rest task),
          outcome (parse_log_loop (S ix) rest task)))
  ∧ ∃ t', outcome (parse_lines_log file (Some t)) = Ok (Some t')
      ∧ diagnostic ix ∈ trace (parse_lines_log file (Some t))
      ∧ trial t' = trial t ∧ position t' = position t
      ∧ head_direction t' = head_direction t
      ∧ sync_behavioral t' = sync_behavioral t.
Proof.
  intros Hix Hlen.
  assert (malformed line = true) as Hm by by apply Nat.ltb_lt.
  assert (∀ task, parse_log_line ix line task = ([diagnostic ix], Ok task))
    as Hline.
  { intros task. by rewrite parse_log_line_spec, Hm. }
  split; [done|]. split.
  { intros rest task. simpl. by rewrite Hline, bind_Ok. }
  destruct (readlines file) as [|first rest] eqn:Hlines; [done|].
  destruct (last (first :: rest)) as [final|] eqn:Hlast;
    [|by apply last_None in Hlast].
  rewrite (parse_lines_log_given file t first final)
    by by rewrite Hlines.
  eexists; split; [done|]. split; [|done].
  rewrite Hlines. by apply (diagnostics_elem _ 0 ix line).
Qed.

Lemma malformed_line_skipped_witness :
  (∀ task, parse_log_line 0 (row ["7"; "oops"]) task
           = ([diagnostic 0], Ok task))
  ∧ (∀ rest task,
       parse_log_loop 0 (row ["7"; "oops"] :: rest) task
       = (diagnostic 0 :: trace (parse_log_loop 1 rest task),
          outcome (parse_log_loop 1 rest task)))
  ∧ ∃ t', outcome (parse_lines_log ragged_log (Some Task_new)) = Ok (Some t')
      ∧ diagnostic 0 ∈ trace (parse_lines_log ragged_log (Some Task_new))
      ∧ trial t' = trial Task_new ∧ position t' = position Task_new
      ∧ head_direction t' = head_direction Task_new
      ∧ sync_behavioral t' = sync_behavioral Task_new.
Proof.
  apply (malformed_line_skipped ragged_log Task_new 0 (row ["7"; "oops"])).
  - reflexivity.
  - vm_compute. lia.
Defined.

(** C3, as amended: for every file that reads as text (its content is the
    decoded text [file]) and is not empty, be it all malformed lines,
    [parse_lines_log], given a task record, returns a task record without
    raising, having printed one diagnostic per malformed line. *)
Theorem parse_lines_log_returns (file : string) (t : Task) :
  file ≠ EmptyString →
  ∃ t', parse_lines_log file (Some t)
        = (diagnostics 0 (readlines file), Ok (Some t')).
Proof.
  intros Hne. apply readlines_nonempty in Hne.
  destruct (readlines file) as [|first rest] eqn:Hlines; [done|].
  destruct (last (first :: rest)) as [final|] eqn:Hlast;
    [|by apply last_None in Hlast].
  rewrite (parse_lines_log_given file t first final)
    by by rewrite Hlines.
  rewrite Hlines. by eexists.
Qed.

Lemma parse_lines_log_returns_witness :
  ∃ t', parse_lines_log (row ["7"; "oops"] +:+ row []) (Some Task_new)
        = ([diagnostic 0; diagnostic 1], Ok (Some t')).
Proof.
  apply (parse_lines_log_returns (row ["7"; "oops"] +:+ row []) Task_new).
  vm_compute. discriminate.
Defined.

(** C3, as stated, fails on the empty file: [lines[0]] raises
    [IndexError], with a task record given as well as without one. *)
Lemma parse_lines_log_empty_file_raises :
  outcome (parse_lines_log EmptyString (Some Task_new)) = Raise IndexError
  ∧ outcome (parse_lines_log EmptyString None) = Raise IndexError
  ∧ ¬ ∃ r, outcome (parse_lines_log EmptyString (Some Task_new)) = Ok r.
Proof.
  split; [done|]. split; [done|]. by intros [r Hr].
Qed.

(** ** Position lines *)

Lemma position_line_well_formed (line : string) :
  position_line line = true → malformed line = false.
Proof.
  unfold position_line, malformed. intros Hp. apply Nat.ltb_ge.
  destruct (tokenize line) as [|t0 [|t1 [|t2 [|t3 ts]]]]; simpl; done || lia.
Qed.

Lemma diagnostics_well_formed (lines : list string) (ix : nat) :
  Forall (λ line, malformed line = false) lines → diagnostics ix lines = [].
Proof.
  intros Hall. revert ix.
  induction Hall as [|line rest Hline _ IH]; intros ix; simpl; [done|].
  by rewrite Hline, IH.
Qed.

(** C4, as amended: for a log file of position-event lines only,
    [parse_lines_log], given a task record, prints nothing and returns the
    record with the session times set from the first and the last line and
    with the position stream exactly as it was given: both event branches
    of the loop are placeholders, and no line adds to a stream. *)
Theorem position_lines_leave_stream (file : string) (t : Task)
    (first final : string) :
  head (readlines file) = Some first →
  last (readlines file) = Some final →
  Forall (λ line, position_line line = true) (readlines file) →
  ∃ t', parse_lines_log file (Some t) = ([], Ok (Some t'))
    ∧ session t' !! "start_time" = Some (leading_field first)
    ∧ session t' !! "end_time" = Some (leading_field final)
    ∧ position t' = position t.
Proof.
  intros Hfirst Hfinal Hall.
  rewrite (parse_lines_log_given file t first final) by done.
  rewrite diagnostics_well_formed.
  - eexists; split; [done|]. simpl.
    by rewrite lookup_insert_eq, lookup_insert_ne, lookup_insert_eq.
  - eapply Forall_impl; [done|]. apply position_line_well_formed.
Qed.

Lemma position_lines_leave_stream_witness :
  ∃ t', parse_lines_log example_log (Some Task_new) = ([], Ok (Some t'))
    ∧ session t' !! "start_time" = Some "0"
    ∧ session t' !! "end_time" = Some "100"
    ∧ position t' = position Task_new.
Proof.
  apply (position_lines_leave_stream example_log Task_new
           (row ["0"; "1"; "POSITION"; "0"; "1.0"; "2.0"])
           (row ["100"; "2"; "POSITION"; "0"; "1.5"; "2.5"])).
  - reflexivity.
  - reflexivity.
  - vm_compute. repeat constructor.
Defined.

(** C4, as stated, fails on its own example: the session times are as
    claimed, but the position stream of the result is empty, not of
    length two. *)
Lemma example_log_position_stream_empty :
  (∃ t', outcome (parse_lines_log example_log (Some Task_new)) = Ok (Some t')
     ∧ session t' !! "start_time" = Some "0"
     ∧ session t' !! "end_time" = Some "100"
     ∧ position t' !! "x" = Some []
     ∧ position t' !! "z" = Some []
     ∧ position t' !! "time" = Some [])
  ∧ ¬ (∃ t' x,
         outcome (parse_lines_log example_log (Some Task_new)) = Ok (Some t')
         ∧ position t' !! "x" = Some x ∧ length x = 2).
Proof.
  split.
  - eexists. by vm_compute.
  - intros (t' & x & Hout & Hx & Hlen).
    vm_compute in Hout. simplify_eq. vm_compute in Hx. by simplify_eq.
Qed.

(** ** Calls without a task record *)

Lemma readlines_cons (c : ascii) (s : string) :
  ∃ line rest, readlines (String c s) = line :: rest.
Proof.
  destruct (readlines (String c s)) as [|line rest] eqn:Hlines; [|by eauto].
  by apply readlines_nonempty in Hlines.
Qed.

(** C5: called without a task record, neither parser creates one.  The
    test [not Task] is on the class, which is true, so [task] stays [None]:
    [parse_lines_log] raises [AttributeError] at its first assignment (on
    the empty file [IndexError], from the right-hand side), and
    [parse_lines_sync] raises [AttributeError] at its first line (on the
    empty file it returns [None]). *)
Theorem no_record_without_task (file : string) :
  outcome (parse_lines_log file None)
  = Raise (match file with
           | EmptyString => IndexError
           | String _ _ => AttributeError
           end)
  ∧ outcome (parse_lines_sync file None)
    = match file with
      | EmptyString => Ok None
      | String _ _ => Raise AttributeError
      end.
Proof.
  destruct file as [|c s]; [done|].
  destruct (readlines_cons c s) as (line & rest & Hlines).
  unfold parse_lines_log, parse_lines_sync, Task_truthy.
  cbn [negb]. cbv zeta iota. rewrite Hlines. split.
  - rewrite (py_index_Some _ 0 line), bind_mret by done.
    by rewrite py_index_split_0, bind_mret.
  - done.
Qed.

(** ** [parse_lines_sync] *)

Lemma sync_append_Some (t : Task) (key : string) (tokens : list string)
    (i : nat) (stream : list string) (value : string) :
  sync_behavioral t !! key = Some stream →
  tokens !! i = Some value →
  sync_append (Some t) key tokens i
  = mret (Some (with_sync_behavioral
                  (<[key := stream ++ [value]]> (sync_behavioral t)) t)).
Proof.
  intros Hkey Hi. unfold sync_append, py_attr, py_getitem.
  by rewrite bind_mret, Hkey, bind_mret, (py_index_Some _ i value), bind_mret.
Qed.

(** One well-formed line appends its first three tokens, one to each
    stream, and touches nothing else. *)
Lemma parse_sync_line_spec (line : string) (t : Task)
    (ts fs os : list string) :
  sync_streams t ts fs os →
  3 ≤ length (tokenize line) →
  ∃ t', parse_sync_line line (Some t) = ([], Ok (Some t'))
    ∧ sync_streams t' (ts ++ [field 0 line]) (fs ++ [field 1 line])
        (os ++ [field 2 line])
    ∧ session t' = session t ∧ trial t' = trial t
    ∧ position t' = position t ∧ head_direction t' = head_direction t.
Proof.
  intros (Ht & Hf & Ho) Hlen. unfold parse_sync_line, field.
  destruct (tokenize line) as [|v0 [|v1 [|v2 vs]]]; simpl in Hlen; try lia.
  cbv zeta.
  rewrite (sync_append_Some _ _ _ _ ts v0), bind_mret by done.
  rewrite (sync_append_Some _ _ _ _ fs v1), bind_mret
    by (by simpl; rewrite ?lookup_insert_ne).
  rewrite (sync_append_Some _ _ _ _ os v2)
    by (by simpl; rewrite ?lookup_insert_ne).
  eexists; split; [done|]. repeat split; simpl.
  - rewrite !lookup_insert_ne by done. by rewrite lookup_insert_eq.
  - rewrite lookup_insert_ne by done. by rewrite lookup_insert_eq.
  - by rewrite lookup_insert_eq.
Qed.

Lemma parse_sync_loop_spec (lines : list string) (t : Task)
    (ts fs os : list string) :
  sync_streams t ts fs os →
  Forall (λ line, 3 ≤ length (tokenize line)) lines →
  ∃ t', parse_sync_loop lines (Some t) = ([], Ok (Some t'))
    ∧ sync_streams t' (ts ++ (field 0 <$> lines)) (fs ++ (field 1 <$> lines))
        (os ++ (field 2 <$> lines))
    ∧ session t' = session t ∧ trial t' = trial t
    ∧ position t' = position t ∧ head_direction t' = head_direction t.
Proof.
  intros Hstreams Hall. revert t ts fs os Hstreams.
  induction Hall as [|line rest Hline _ IH]; intros t ts fs os Hstreams.
  - exists t. simpl. by rewrite !app_nil_r.
  - destruct (parse_sync_line_spec line t ts fs os)
      as (t1 & Hrun & Hstreams1 & Hs & Htr & Hp & Hh); [done..|].
    destruct (IH t1 _ _ _ Hstreams1)
      as (t2 & Hloop & Hstreams2 & Hs2 & Htr2 & Hp2 & Hh2).
    exists t2. simpl. rewrite Hrun, bind_Ok, Hloop.
    split; [done|]. rewrite <-!app_assoc in Hstreams2. simpl in Hstreams2.
    split; [exact Hstreams2|]. repeat split; congruence.
Qed.




(** ** The batch driver *)

Lemma bind_assoc {A B C} (m : M A) (k : A → M B) (h : B → M C) :
  (m ≫= k) ≫= h = m ≫= (λ a, k a ≫= h).
Proof.
  unfold mbind, M_bind. destruct m as [tr [a|e]]; [|done].
  destruct (k a) as [tr' [b|e]]; [|done].
  destruct (h b). by rewrite app_assoc.
Qed.

Lemma for_each_app {A} (body : A → M unit) (xs ys : list A) :
  for_each body (xs ++ ys) = (for_each body xs;; for_each body ys).
Proof.
  induction xs as [|x xs IH]; cbn [for_each app].
  - by rewrite bind_mret.
  - by rewrite IH, bind_assoc.
Qed.

Lemma calls_of_app (tr1 tr2 : list event) :
  calls_of (tr1 ++ tr2) = calls_of tr1 ++ calls_of tr2.
Proof.
  induction tr1 as [|ev tr1 IH]; simpl; [done|].
  destruct ev; simpl; by rewrite ?IH.
Qed.

Lemma obs_bind {A B} (m m' : M A) (k k' : A → M B) :
  obs m = obs m' → (∀ a, obs (k a) = obs (k' a)) →
  obs (m ≫= k) = obs (m' ≫= k').
Proof.
  unfold obs. intros Hm Hk.
  destruct m as [tr [a|e]], m' as [tr' [a'|e']]; simpl in Hm; simplify_eq.
  - rewrite !bind_Ok. simpl. rewrite !calls_of_app.
    specialize (Hk a'). simplify_eq. congruence.
  - rewrite !bind_Raise. simpl. congruence.
Qed.

Lemma obs_print_status (verbose : bool) (msg : string) (level : nat) :
  obs (print_status verbose msg level) = obs (mret tt).
Proof. done. Qed.

Lemma obs_bind_mret_r (m : M unit) : obs (m ≫= λ _, mret tt) = obs m.
Proof.
  destruct m as [tr [[]|e]]; [|done].
  rewrite bind_Ok. unfold obs. simpl. by rewrite app_nil_r.
Qed.

(** The listing the driver builds: for subjects listed once each, one
    item per subject, in the order of the directory listing. *)
Lemma dict_set_fresh {V} (key : string) (value : V)
    (d : list (string * V)) :
  key ∉ d.*1 → dict_set key value d = d ++ [(key, value)].
Proof.
  induction d as [|[k v] d IH]; [done|]. simpl.
  intros [Hk Hd]%not_elem_of_cons.
  destruct (String.eqb_spec k key) as [->|_]; [done|]. by rewrite IH.
Qed.

Lemma all_sessions_NoDup (subjects : list string)
    (sessions_of : string → list string) :
  NoDup subjects →
  all_sessions subjects sessions_of
  = (λ subject, (subject, sessions_of subject)) <$> subjects.
Proof.
  unfold all_sessions.
  cut (∀ acc : list (string * list string),
         NoDup subjects → (∀ s, s ∈ subjects → s ∉ acc.*1) →
         foldl (λ d subject, dict_set subject (sessions_of subject) d)
           acc subjects
         = acc ++ ((λ subject, (subject, sessions_of subject)) <$> subjects)).
  { intros Hgen Hnd. apply (Hgen [] Hnd). intros s _. apply not_elem_of_nil. }
  induction subjects as [|subject rest IH]; intros acc Hnd Hfresh; simpl.
  - by rewrite app_nil_r.
  - apply NoDup_cons in Hnd as [Hsubj Hnd].
    rewrite dict_set_fresh by apply Hfresh, list_elem_of_here.
    rewrite IH, <-app_assoc; [done|done|].
    intros s Hs. rewrite fmap_app. simpl.
    rewrite elem_of_app, elem_of_cons. intros [Hin|[->|Hin]].
    + by apply (Hfresh s (list_elem_of_further _ _ _ Hs)).
    + done.
    + by apply elem_of_nil in Hin.
Qed.

Lemma enumerated_listing (experiment : string) (subjects : list string)
    (sessions_of : string → list string) :
  enumerated experiment
    ((λ subject, (subject, sessions_of subject)) <$> subjects)
  = subjects ≫= λ subject, session_of experiment subject <$> sessions_of subject.
Proof.
  unfold enumerated. induction subjects as [|subject rest IH]; [done|].
  by rewrite fmap_cons, !bind_cons, IH.
Qed.

Section RunAllProps.

Context (make_session_name : string → string → string → string)
  (EXPERIMENT_ : string) (ST : SETTINGS) (SK : SKIP)
  (subjects : list string) (sessions_of : string → list string)
  (converted : list string)
  (prepare_data convert_data' : SESSION → SETTINGS → M unit).

Local Abbreviation is_skipped := (skipped make_session_name ST SK converted).
Local Abbreviation mk_session := (session_of EXPERIMENT_).
Local Abbreviation chosen :=
  (selected make_session_name EXPERIMENT_ ST SK converted).
Local Abbreviation pairs := (enumerated EXPERIMENT_).
Local Abbreviation run_pipeline := (pipeline ST prepare_data convert_data').
Local Abbreviation session_body :=
  (run_session make_session_name EXPERIMENT_ ST SK converted
     prepare_data convert_data').
Local Abbreviation subject_body :=
  (run_subject make_session_name EXPERIMENT_ ST SK converted
     prepare_data convert_data').
Local Abbreviation driver :=
  (run_all_conversions make_session_name EXPERIMENT_ ST SK subjects
     sessions_of converted prepare_data convert_data').

Lemma run_session_obs (subject session : string) :
  subject ∉ SUBJECTS SK →
  obs (session_body subject session)
  = obs (if is_skipped (mk_session subject session) then mret tt
         else run_pipeline (mk_session subject session)).
Proof.
  intros Hsubj. unfold session_body, skipped, name_of. simpl.
  rewrite (bool_decide_eq_false_2 _ Hsubj). simpl.
  destruct (bool_decide (_ ∈ SESSIONS SK)); simpl; [done|].
  by destruct (SKIP_ALREADY_RUN ST && _).
Qed.

Lemma run_sessions_obs (subject : string) (sessions : list string) :
  subject ∉ SUBJECTS SK →
  obs (for_each (session_body subject) sessions)
  = obs (for_each run_pipeline
           (filter (λ sess, is_skipped sess = false)
              (mk_session subject <$> sessions))).
Proof.
  intros Hsubj. induction sessions as [|session rest IH]; [done|].
  simpl for_each at 1. rewrite fmap_cons, filter_cons.
  destruct (decide (is_skipped (mk_session subject session) = false))
    as [Hsk|Hsk].
  - simpl. apply obs_bind; [|done].
    by rewrite run_session_obs, Hsk.
  - transitivity (obs (mret tt ≫= λ _, for_each (session_body subject) rest));
      [|by rewrite bind_mret].
    apply obs_bind; [|done].
    rewrite run_session_obs by done.
    by destruct (is_skipped (mk_session subject session)).
Qed.

Lemma skipped_subject (subject session : string) :
  subject ∈ SUBJECTS SK → is_skipped (mk_session subject session) = true.
Proof.
  intros Hsubj. unfold skipped. simpl.
  by rewrite (bool_decide_eq_true_2 _ Hsubj).
Qed.

Lemma run_subject_obs (item : string * list string) :
  obs (subject_body item) = obs (for_each run_pipeline (chosen [item])).
Proof.
  destruct item as [subject sessions].
  unfold subject_body, selected, enumerated.
  simpl. rewrite app_nil_r.
  destruct (decide (subject ∈ SUBJECTS SK)) as [Hsubj|Hsubj].
  - rewrite (bool_decide_eq_true_2 _ Hsubj), obs_print_status.
    replace (filter _ _) with (@nil SESSION); [done|].
    symmetry. induction sessions as [|session rest IH]; [done|].
    rewrite fmap_cons, filter_cons_False; [done|].
    by rewrite skipped_subject.
  - rewrite (bool_decide_eq_false_2 _ Hsubj). by apply run_sessions_obs.
Qed.

Lemma selected_cons (item : string * list string)
    (listing : list (string * list string)) :
  chosen (item :: listing) = chosen [item] ++ chosen listing.
Proof.
  unfold selected, enumerated. simpl.
  by rewrite app_nil_r, filter_app.
Qed.

Lemma run_subjects_obs (listing : list (string * list string)) :
  obs (for_each subject_body listing)
  = obs (for_each run_pipeline (chosen listing)).
Proof.
  induction listing as [|item rest IH]; [done|].
  rewrite selected_cons, for_each_app. simpl for_each at 1.
  apply obs_bind; [apply run_subject_obs|done].
Qed.

(** The driver, seen through its calls and its outcome, is the plain
    loop over the chosen sessions. *)
Lemma run_all_conversions_obs :
  obs driver
  = obs (for_each run_pipeline (chosen (all_sessions subjects sessions_of))).
Proof.
  unfold run_all_conversions; cbv zeta.
  set (loop := for_each run_pipeline _).
  transitivity (obs (mret tt ≫= λ _, loop ≫= λ _, mret tt));
    [|by rewrite bind_mret, obs_bind_mret_r].
  apply obs_bind; [done|]. intros _.
  apply obs_bind; [apply run_subjects_obs|done].
Qed.

Lemma obs_bind_Ok {A B} (m : M A) (k : A → M B) (a : A) :
  outcome m = Ok a →
  obs (m ≫= k) = (calls_of (trace m) ++ (obs (k a)).1, (obs (k a)).2).
Proof.
  destruct m as [tr r]. intros Hr. cbn [outcome snd] in Hr. subst r.
  rewrite bind_Ok. unfold obs. cbn [trace outcome fst snd].
  by rewrite calls_of_app.
Qed.

Lemma obs_bind_Raise {A B} (m : M A) (k : A → M B) (e : exn) :
  outcome m = Raise e → obs (m ≫= k) = (calls_of (trace m), Raise e).
Proof.
  destruct m as [tr r]. intros Hr. cbn [outcome snd] in Hr. by subst r.
Qed.

Lemma pipeline_obs (sess : SESSION) :
  obs (run_pipeline sess)
  = match outcome (prepare_data sess ST) with
    | Ok _ =>
        ([(PrepareData, sess); (ConvertData, sess)],
         outcome (convert_data' sess ST))
    | Raise e => ([(PrepareData, sess)], Raise e)
    end.
Proof.
  unfold pipeline.
  destruct (outcome (prepare_data sess ST)) as [u|e] eqn:Hprep.
  - by rewrite (obs_bind_Ok _ _ u).
  - by rewrite (obs_bind_Raise _ _ e).
Qed.

Lemma pipeline_calls_cons (sess : SESSION) (ss : list SESSION) :
  pipeline_calls (sess :: ss)
  = (PrepareData, sess) :: (ConvertData, sess) :: pipeline_calls ss.
Proof. done. Qed.

Lemma pipeline_calls_app (ss1 ss2 : list SESSION) :
  pipeline_calls (ss1 ++ ss2) = pipeline_calls ss1 ++ pipeline_calls ss2.
Proof. unfold pipeline_calls. by rewrite bind_app. Qed.

Lemma for_each_pipeline_cons (sess : SESSION) (ss : list SESSION) :
  obs (for_each run_pipeline (sess :: ss))
  = match outcome (prepare_data sess ST), outcome (convert_data' sess ST) with
    | Ok _, Ok _ =>
        ((PrepareData, sess) :: (ConvertData, sess)
           :: (obs (for_each run_pipeline ss)).1,
         (obs (for_each run_pipeline ss)).2)
    | Ok _, Raise e => ([(PrepareData, sess); (ConvertData, sess)], Raise e)
    | Raise e, _ => ([(PrepareData, sess)], Raise e)
    end.
Proof.
  cbn [for_each]. pose proof (pipeline_obs sess) as Hp.
  destruct (outcome (prepare_data sess ST)) as [u|e] eqn:Hprep.
  - destruct (outcome (convert_data' sess ST)) as [u'|e] eqn:Hconv.
    + injection Hp as Hcalls Hout.
      by rewrite (obs_bind_Ok _ _ u'), Hcalls.
    + injection Hp as Hcalls Hout.
      by rewrite (obs_bind_Raise _ _ e), Hcalls.
  - injection Hp as Hcalls Hout.
    by rewrite (obs_bind_Raise _ _ e), Hcalls.
Qed.

(** Whatever happens, the calls made are an initial part of the calls
    for the sessions handed to the loop. *)
Lemma for_each_pipeline_prefix (ss : list SESSION) :
  calls_of (trace (for_each run_pipeline ss)) `prefix_of` pipeline_calls ss.
Proof.
  induction ss as [|sess ss IH]; [done|].
  change (calls_of (trace ?m)) with (obs m).1.
  rewrite for_each_pipeline_cons, pipeline_calls_cons.
  destruct (outcome (prepare_data sess ST));
    [destruct (outcome (convert_data' sess ST))|]; simpl.
  - by do 2 apply prefix_cons.
  - do 2 apply prefix_cons. apply prefix_nil.
  - apply prefix_cons, prefix_nil.
Qed.

(** If every call returns, all of them are made. *)
Lemma for_each_pipeline_all (ss : list SESSION) :
  (∀ sess, sess ∈ ss →
     outcome (prepare_data sess ST) = Ok tt
     ∧ outcome (convert_data' sess ST) = Ok tt) →
  obs (for_each run_pipeline ss) = (pipeline_calls ss, Ok tt).
Proof.
  induction ss as [|sess ss IH]; intros Hall; [done|].
  rewrite for_each_pipeline_cons, pipeline_calls_cons.
  destruct (Hall sess (list_elem_of_here _ _)) as [Hprep Hconv].
  rewrite Hprep, Hconv, IH; [done|].
  intros s Hs. by apply Hall, list_elem_of_further.
Qed.

(** The first call that raises ends the loop: nothing is called for the
    sessions after it. *)
Lemma for_each_pipeline_raise (before after : list SESSION)
    (sess : SESSION) (e : exn) :
  (∀ s, s ∈ before →
     outcome (prepare_data s ST) = Ok tt
     ∧ outcome (convert_data' s ST) = Ok tt) →
  outcome (prepare_data sess ST) = Ok tt →
  outcome (convert_data' sess ST) = Raise e →
  obs (for_each run_pipeline (before ++ sess :: after))
  = (pipeline_calls (before ++ [sess]), Raise e).
Proof.
  intros Hall Hprep Hconv. revert Hall.
  induction before as [|s before IH]; intros Hall; cbn [app].
  - by rewrite for_each_pipeline_cons, Hprep, Hconv.
  - rewrite for_each_pipeline_cons, pipeline_calls_cons.
    destruct (Hall s (list_elem_of_here _ _)) as [Hp Hc].
    rewrite Hp, Hc, IH; [done|].
    intros s' Hs'. by apply Hall, list_elem_of_further.
Qed.

Lemma skipped_false_iff (sess : SESSION) :
  is_skipped sess = false
  ↔ (SUBJECT sess ∉ SUBJECTS SK)
    ∧ (name_of make_session_name sess ∉ SESSIONS SK)
    ∧ ¬ (SKIP_ALREADY_RUN ST = true
         ∧ (name_of make_session_name sess +:+ ".nwb") ∈ converted).
Proof.
  unfold skipped.
  rewrite !orb_false_iff, andb_false_iff, !bool_decide_eq_false.
  clear. destruct (SKIP_ALREADY_RUN ST); intuition congruence.
Qed.

Lemma elem_of_selected (sess : SESSION)
    (listing : list (string * list string)) :
  sess ∈ chosen listing ↔ sess ∈ pairs listing ∧ is_skipped sess = false.
Proof. unfold selected. rewrite list_elem_of_filter. clear. tauto. Qed.

Lemma elem_of_pipeline_calls (f : callee) (sess : SESSION)
    (ss : list SESSION) :
  (f, sess) ∈ pipeline_calls ss → sess ∈ ss.
Proof.
  unfold pipeline_calls. rewrite list_elem_of_bind.
  intros (s & Hin & Hs).
  apply elem_of_cons in Hin as [?|Hin]; [by simplify_eq|].
  apply elem_of_cons in Hin as [?|Hin]; [by simplify_eq|].
  by apply elem_of_nil in Hin.
Qed.

(** C8: seen through the calls it makes and its outcome, the batch
    driver is the loop [for sess in selected: prepare_data; convert_data]
    over the enumerated (subject, session) pairs that are not skipped,
    where a pair is skipped exactly when its subject is in the
    skip-subjects list, or its session name is in the skip-sessions list,
    or [SKIP_ALREADY_RUN] is set and its output file name is among the
    converted files.  So the calls made are always an initial part of the
    two calls per selected pair, no call is ever made for a skipped
    pair, and when every call returns, both calls are made for every
    selected pair, in order.  For a directory listing without repeated
    subjects the enumerated pairs are the sessions of each subject, in
    listing order. *)
Theorem batch_invokes_selected :
  obs driver
  = obs (for_each run_pipeline (chosen (all_sessions subjects sessions_of)))
  ∧ calls_of (trace driver)
      `prefix_of` pipeline_calls (chosen (all_sessions subjects sessions_of))
  ∧ (∀ f sess, (f, sess) ∈ calls_of (trace driver) →
       sess ∈ pairs (all_sessions subjects sessions_of)
       ∧ (SUBJECT sess ∉ SUBJECTS SK)
       ∧ (name_of make_session_name sess ∉ SESSIONS SK)
       ∧ ¬ (SKIP_ALREADY_RUN ST = true
            ∧ (name_of make_session_name sess +:+ ".nwb") ∈ converted))
  ∧ ((∀ sess, sess ∈ chosen (all_sessions subjects sessions_of) →
        outcome (prepare_data sess ST) = Ok tt
        ∧ outcome (convert_data' sess ST) = Ok tt) →
     outcome driver = Ok tt
     ∧ calls_of (trace driver)
       = pipeline_calls (chosen (all_sessions subjects sessions_of)))
  ∧ (NoDup subjects →
     pairs (all_sessions subjects sessions_of)
     = subjects ≫= λ subject, mk_session subject <$> sessions_of subject).
Proof.
  pose proof run_all_conversions_obs as Hobs.
  assert (calls_of (trace driver)
          `prefix_of` pipeline_calls
                        (chosen (all_sessions subjects sessions_of)))
    as Hprefix.
  { change (calls_of (trace driver)) with (obs driver).1.
    rewrite Hobs. apply for_each_pipeline_prefix. }
  split; [done|]. split; [done|]. split.
  - intros f sess Hin.
    apply (elem_of_prefix _ _ _ Hin), elem_of_pipeline_calls,
      elem_of_selected in Hprefix.
    rename Hprefix into Hsel. destruct Hsel as [Hin' Hsk].
    split; [done|]. by apply skipped_false_iff in Hsk.
  - split.
    + intros Hall. apply for_each_pipeline_all in Hall.
      rewrite <-Hobs in Hall. by injection Hall as -> ->.
    + intros Hnd. rewrite all_sessions_NoDup by done.
      apply enumerated_listing.
Qed.

End RunAllProps.

Lemma batch_invokes_selected_witness :
  let batch :=
    run_all_conversions demo_name "EXP" demo_settings demo_skip demo_subjects
      demo_sessions demo_converted demo_stage demo_stage in
  selected demo_name "EXP" demo_settings demo_skip demo_converted
    (all_sessions demo_subjects demo_sessions)
  = [demo_first; demo_second]
  ∧ outcome batch = Ok tt
  ∧ calls_of (trace batch)
    = [(PrepareData, demo_first); (ConvertData, demo_first);
       (PrepareData, demo_second); (ConvertData, demo_second)].
Proof.
  intros batch. split; [by vm_compute|].
  destruct (batch_invokes_selected demo_name "EXP" demo_settings demo_skip
              demo_subjects demo_sessions demo_converted demo_stage
              demo_stage)
    as (_ & _ & _ & Hall & _).
  apply Hall. intros sess _. split; reflexivity.
Defined.

(** ** [process_session] *)

(** C9: whatever its arguments, [process_session] raises before it
    returns, so it never yields a task record.  It reads its local [task]
    before any assignment ([UnboundLocalError]); and were that local bound,
    the read of the name [file_path], bound nowhere, would raise
    [NameError], as would the read of [verbose]. *)
Theorem process_session_always_raises (read_file : string → string)
    (process_task : option Task → M (option Task))
    (file_path_log : string) (process : bool) :
  process_session read_file process_task file_path_log process
  = ([], Raise UnboundLocalError)
  ∧ (∀ task0,
       process_session_body read_file process_task task0 file_path_log
         process
       = ([], Raise match task0 with
                    | None => UnboundLocalError
                    | Some _ => NameError
                    end))
  ∧ read_global "file_path" = raise NameError
  ∧ read_global "verbose" = raise NameError
  ∧ ¬ ∃ r, outcome (process_session read_file process_task file_path_log
                      process) = Ok r.
Proof.
  split; [done|]. split; [by intros [task|]|].
  split; [done|]. split; [done|]. by intros [r Hr].
Qed.

(** ** Tokens *)

Lemma str_join_cons (sep : ascii) (f f' : string) (fs : list string) :
  str_join sep (f :: f' :: fs) = f +:+ String sep (str_join sep (f' :: fs)).
Proof. done. Qed.



Lemma remove_cr_snoc (s : string) (c : ascii) :
  c ≠ CR → remove_cr (snoc s c) = snoc (remove_cr s) c.
Proof.
  intros Hc. apply Ascii.eqb_neq in Hc. unfold snoc.
  induction s as [|c' s IH]; simpl; [by rewrite Hc|].
  destruct (Ascii.eqb c' CR); simpl; by rewrite IH.
Qed.

Lemma drop_last_snoc (s : string) (c : ascii) : drop_last (snoc s c) = s.
Proof.
  induction s as [|c' s IH]; [done|].
  change (snoc (String c' s) c) with (String c' (snoc s c)).
  destruct s as [|c'' s]; [done|].
  change (drop_last (String c' (snoc (String c'' s) c)))
    with (String c' (drop_last (snoc (String c'' s) c))).
  by rewrite IH.
Qed.




(** ** The lines of a file *)







(** A sync file whose only line lacks the newline: the on/off entry is
    [o], not [on]. *)
Example sync_last_line_without_newline :
  ∃ t', parse_lines_sync (str_join TAB ["10"; "1"; "on"]) (Some Task_new)
        = ([], Ok (Some t'))
    ∧ sync_streams t' ["10"] ["1"] ["o"].
Proof. eexists. split; [by vm_compute|]. by vm_compute. Qed.


(** * Further properties of the code *)

(** ** Tokens of a well-formed line *)

Lemma str_split_free (sep : ascii) (f : string) :
  occurs sep f = false → str_split sep f = [f].
Proof.
  induction f as [|c f IH]; [done|]. simpl.
  intros [Hc Hf]%orb_false_iff. by rewrite Hc, IH.
Qed.

Lemma str_split_app_sep (sep : ascii) (f rest : string) :
  occurs sep f = false →
  str_split sep (f +:+ String sep rest) = f :: str_split sep rest.
Proof.
  induction f as [|c f IH]; simpl.
  - intros _. by rewrite Ascii.eqb_refl.
  - intros [Hc Hf]%orb_false_iff. by rewrite Hc, IH.
Qed.

Lemma str_split_join (sep : ascii) (fields : list string) :
  fields ≠ [] → Forall (λ f, occurs sep f = false) fields →
  str_split sep (str_join sep fields) = fields.
Proof.
  intros Hne Hall. induction Hall as [|f fs Hf Hfs IH]; [done|].
  destruct fs as [|f' fs].
  - by apply str_split_free.
  - by rewrite str_join_cons, str_split_app_sep, IH.
Qed.

Lemma occurs_app (c : ascii) (s1 s2 : string) :
  occurs c (s1 +:+ s2) = occurs c s1 || occurs c s2.
Proof.
  induction s1 as [|c' s1 IH]; [done|]. simpl.
  by rewrite IH, orb_assoc.
Qed.

Lemma occurs_join (sep c : ascii) (fields : list string) :
  c ≠ sep → Forall (λ f, occurs c f = false) fields →
  occurs c (str_join sep fields) = false.
Proof.
  intros Hc Hall. apply Ascii.eqb_neq in Hc.
  induction Hall as [|f fs Hf Hfs IH]; [done|].
  destruct fs as [|f' fs]; [done|].
  rewrite str_join_cons, occurs_app, Hf. simpl.
  rewrite Ascii.eqb_sym, Hc. by apply IH.
Qed.

Lemma remove_cr_free (s : string) :
  occurs CR s = false → remove_cr s = s.
Proof.
  induction s as [|c s IH]; [done|]. simpl.
  intros [Hc Hs]%orb_false_iff. by rewrite Hc, IH.
Qed.

Lemma remove_cr_snoc_CR (s : string) : remove_cr (snoc s CR) = remove_cr s.
Proof.
  unfold snoc. induction s as [|c s IH]; [done|]. simpl.
  by destruct (Ascii.eqb c CR); rewrite IH.
Qed.

(** X1: the tokens of a line made of one or more fields joined by tabs and
    ended by a newline, or by a carriage return and a newline, are exactly
    those fields, provided no field holds a tab or a carriage return. *)
Theorem tokenize_joined_fields (fields : list string) :
  fields ≠ [] →
  Forall (λ f, occurs TAB f = false ∧ occurs CR f = false) fields →
  tokenize (snoc (str_join TAB fields) LF) = fields
  ∧ tokenize (snoc (snoc (str_join TAB fields) CR) LF) = fields.
Proof.
  intros Hne Hall.
  assert (Forall (λ f, occurs TAB f = false) fields) as Htab.
  { eapply Forall_impl; [exact Hall|]. by intros f [? _]. }
  assert (occurs CR (str_join TAB fields) = false) as Hcr.
  { apply occurs_join; [done|].
    eapply Forall_impl; [exact Hall|]. by intros f [_ ?]. }
  unfold tokenize. cbv zeta.
  rewrite !(remove_cr_snoc _ LF), remove_cr_snoc_CR, !drop_last_snoc by done.
  rewrite remove_cr_free by done. split; by apply str_split_join.
Qed.

Lemma tokenize_joined_fields_witness :
  tokenize (snoc (str_join TAB ["0"; "1"; "POSITION"; "0"; "1.0"; "2.0"]) LF)
  = ["0"; "1"; "POSITION"; "0"; "1.0"; "2.0"]
  ∧ tokenize
      (snoc (snoc (str_join TAB ["0"; "1"; "POSITION"; "0"; "1.0"; "2.0"]) CR)
         LF)
    = ["0"; "1"; "POSITION"; "0"; "1.0"; "2.0"].
Proof.
  apply (tokenize_joined_fields ["0"; "1"; "POSITION"; "0"; "1.0"; "2.0"]).
  - discriminate.
  - vm_compute. repeat constructor.
Defined.

(** ** How many tokens a line has *)

Lemma length_str_split (sep : ascii) (s : string) :
  length (str_split sep s) = S (count_char sep s).
Proof.
  induction s as [|c s IH]; [done|]. simpl.
  destruct (Ascii.eqb c sep); simpl; [by rewrite IH|].
  destruct (str_split sep s); simpl in *; lia.
Qed.

(** X2: a line has one token more than there are tabs in it once the
    carriage returns and the final character are taken away; so the loop
    of [parse_lines_log] reports a line exactly when fewer than three tabs
    are left, and the empty line is reported. *)
Theorem token_count (line : string) :
  length (tokenize line) = S (count_char TAB (drop_last (remove_cr line)))
  ∧ (∀ ix task,
       trace (parse_log_line ix line task) = [diagnostic ix]
       ↔ count_char TAB (drop_last (remove_cr line)) < 3)
  ∧ (∀ ix task,
       trace (parse_log_line ix line task) = []
       ↔ 3 ≤ count_char TAB (drop_last (remove_cr line)))
  ∧ (∀ ix task,
       parse_log_line ix (String LF EmptyString) task
       = ([diagnostic ix], Ok task)).
Proof.
  assert (length (tokenize line)
          = S (count_char TAB (drop_last (remove_cr line)))) as Hlen.
  { unfold tokenize. cbv zeta. apply length_str_split. }
  split; [done|].
  assert (malformed line = true
          ↔ count_char TAB (drop_last (remove_cr line)) < 3) as Hm.
  { unfold malformed. rewrite Nat.ltb_lt, Hlen. lia. }
  split; [|split].
  - intros ix task. rewrite parse_log_line_spec. cbn [trace fst].
    destruct (malformed line); [by rewrite <-Hm|].
    split; [done|]. rewrite <-Hm. done.
  - intros ix task. rewrite parse_log_line_spec. cbn [trace fst].
    destruct (malformed line).
    + split; [done|]. intros Hge. assert (true = true) as Ht by done.
      apply Hm in Ht. lia.
    + split; [|done]. intros _.
      destruct (decide (count_char TAB (drop_last (remove_cr line)) < 3))
        as [Hlt|Hge]; [by apply Hm in Hlt|lia].
  - intros ix task. by rewrite parse_log_line_spec.
Qed.

(** ** The session times are cut from the raw lines *)

Lemma leading_field_free (s : string) :
  occurs TAB s = false → leading_field s = s.
Proof.
  induction s as [|c s IH]; [done|]. simpl.
  intros [Hc Hs]%orb_false_iff. by rewrite Hc, IH.
Qed.

Lemma leading_field_prefix (s : string) :
  ∃ rest, s = leading_field s +:+ rest.
Proof.
  induction s as [|c s [rest IH]]; [by exists EmptyString|]. simpl.
  destruct (Ascii.eqb c TAB); [by exists (String c s)|].
  exists rest. by rewrite IH at 1.
Qed.

Lemma occurs_leading_field (s : string) :
  occurs TAB (leading_field s) = false.
Proof.
  induction s as [|c s IH]; [done|]. simpl.
  destruct (Ascii.eqb c TAB) eqn:Hc; [done|]. simpl. by rewrite Hc.
Qed.

Lemma leading_field_split (s : string) :
  ∃ rest, s = leading_field s +:+ rest
    ∧ (rest = EmptyString ∨ ∃ rest', rest = String TAB rest').
Proof.
  induction s as [|c s (rest & IH & Hrest)].
  - exists EmptyString. split; [done|by left].
  - simpl. destruct (Ascii.eqb_spec c TAB) as [->|Hne].
    + exists (String TAB s). split; [done|]. right. by exists s.
    + exists rest. split; [|done]. by rewrite IH at 1.
Qed.

(** X3: the session start and end time that [parse_lines_log] stores are
    cut from the first and the last line as read, before any stripping:
    each is the part of its line before the first tab, that is, it holds
    no tab and what follows it in the line is either nothing or begins
    with a tab; so for a line without a tab it is the whole line, its
    newline included. *)
Theorem session_times_raw (file : string) (t : Task) (first final : string) :
  head (readlines file) = Some first →
  last (readlines file) = Some final →
  ∃ t' start_time end_time rest_first rest_final,
    outcome (parse_lines_log file (Some t)) = Ok (Some t')
    ∧ session t' !! "start_time" = Some start_time
    ∧ session t' !! "end_time" = Some end_time
    ∧ first = start_time +:+ rest_first
    ∧ final = end_time +:+ rest_final
    ∧ occurs TAB start_time = false ∧ occurs TAB end_time = false
    ∧ (rest_first = EmptyString ∨ ∃ r, rest_first = String TAB r)
    ∧ (rest_final = EmptyString ∨ ∃ r, rest_final = String TAB r)
    ∧ (occurs TAB first = false → start_time = first)
    ∧ (occurs TAB final = false → end_time = final).
Proof.
  intros Hfirst Hfinal.
  rewrite (parse_lines_log_given file t first final) by done.
  destruct (leading_field_split first) as (rest_first & Hf & Hrf).
  destruct (leading_field_split final) as (rest_final & Hl & Hrl).
  exists (with_session_times (leading_field first) (leading_field final) t),
    (leading_field first), (leading_field final), rest_first, rest_final.
  split; [done|]. simpl.
  rewrite lookup_insert_ne, !lookup_insert_eq by done.
  do 4 (split; [done|]).
  split; [apply occurs_leading_field|].
  split; [apply occurs_leading_field|].
  do 2 (split; [done|]).
  split; apply leading_field_free.
Qed.

Lemma session_times_raw_witness :
  ∃ t' start_time end_time rest_first rest_final,
    outcome (parse_lines_log (row ["begin"] +:+ row ["9"; "1"; "E"; "s"])
               (Some Task_new)) = Ok (Some t')
    ∧ session t' !! "start_time" = Some start_time
    ∧ session t' !! "end_time" = Some end_time
    ∧ row ["begin"] = start_time +:+ rest_first
    ∧ row ["9"; "1"; "E"; "s"] = end_time +:+ rest_final
    ∧ occurs TAB start_time = false ∧ occurs TAB end_time = false
    ∧ (rest_first = EmptyString ∨ ∃ r, rest_first = String TAB r)
    ∧ (rest_final = EmptyString ∨ ∃ r, rest_final = String TAB r)
    ∧ (occurs TAB (row ["begin"]) = false → start_time = row ["begin"])
    ∧ (occurs TAB (row ["9"; "1"; "E"; "s"]) = false
       → end_time = row ["9"; "1"; "E"; "s"]).
Proof.
  apply (session_times_raw (row ["begin"] +:+ row ["9"; "1"; "E"; "s"])
           Task_new (row ["begin"]) (row ["9"; "1"; "E"; "s"]));
    reflexivity.
Defined.

(** ** Which lines are reported *)

Lemma append_inj_r (p s1 s2 : string) : p +:+ s1 = p +:+ s2 → s1 = s2.
Proof. induction p as [|c p IH]; simpl; [done|]. intros [=]. auto. Qed.

Lemma diagnostic_inj (ix ix' : nat) : diagnostic ix = diagnostic ix' → ix = ix'.
Proof.
  unfold diagnostic. intros [= Heq%append_inj_r].
  by apply (inj pretty) in Heq.
Qed.

Lemma diagnostics_elem_inv (lines : list string) (ix0 : nat) (ev : event) :
  ev ∈ diagnostics ix0 lines →
  ∃ i line, ev = diagnostic (ix0 + i) ∧ lines !! i = Some line
    ∧ malformed line = true.
Proof.
  revert ix0. induction lines as [|l rest IH]; intros ix0; simpl.
  - intros Hin. by apply elem_of_nil in Hin.
  - rewrite elem_of_app. intros [Hin|Hin].
    + destruct (malformed l) eqn:Hm; [|by apply elem_of_nil in Hin].
      apply list_elem_of_singleton in Hin as ->.
      exists 0, l. by rewrite Nat.add_0_r.
    + destruct (IH _ Hin) as (i & line & -> & Hi & Hm).
      exists (S i), line. split; [f_equal; lia|done].
Qed.

Lemma length_diagnostics (lines : list string) (ix : nat) :
  length (diagnostics ix lines)
  = length (filter (λ line, malformed line = true) lines).
Proof.
  revert ix. induction lines as [|l rest IH]; intros ix; [done|].
  simpl. rewrite length_app, IH.
  destruct (malformed l) eqn:Hm.
  - by rewrite filter_cons_True.
  - by rewrite filter_cons_False by congruence.
Qed.

Lemma readlines_head_last (file : string) :
  file ≠ EmptyString →
  ∃ first final,
    head (readlines file) = Some first ∧ last (readlines file) = Some final.
Proof.
  intros Hne%readlines_nonempty.
  destruct (readlines file) as [|first rest]; [done|].
  destruct (last (first :: rest)) as [final|] eqn:Hlast;
    [by eauto|by apply last_None in Hlast].
Qed.

(** X4: on a file that is not empty, [parse_lines_log], given a task
    record, prints diagnostics and nothing else, as many as there are lines
    with fewer than four tokens; the diagnostic for line number [ix],
    counted from zero, is printed exactly when that line of the file has
    fewer than four tokens. *)
Theorem reported_lines (file : string) (t : Task) :
  file ≠ EmptyString →
  length (trace (parse_lines_log file (Some t)))
  = length (filter (λ line, malformed line = true) (readlines file))
  ∧ (∀ ev, ev ∈ trace (parse_lines_log file (Some t)) →
       ∃ ix, ev = diagnostic ix)
  ∧ (∀ ix, diagnostic ix ∈ trace (parse_lines_log file (Some t))
       ↔ ∃ line, readlines file !! ix = Some line
           ∧ length (tokenize line) < 4).
Proof.
  intros Hne. destruct (readlines_head_last file Hne)
    as (first & final & Hfirst & Hfinal).
  rewrite (parse_lines_log_given file t first final) by done.
  cbn [trace fst]. split; [apply length_diagnostics|]. split.
  - intros ev (i & line & -> & _)%diagnostics_elem_inv. by eexists.
  - intros ix. split.
    + intros (i & line & Heq%diagnostic_inj & Hi & Hm)%diagnostics_elem_inv.
      simpl in Heq. subst i. exists line. split; [done|].
      by apply Nat.ltb_lt.
    + intros (line & Hix & Hlen).
      apply (diagnostics_elem _ 0 ix line); [done|]. by apply Nat.ltb_lt.
Qed.

Lemma reported_lines_witness :
  length (trace (parse_lines_log ragged_log (Some Task_new)))
  = length (filter (λ line, malformed line = true) (readlines ragged_log))
  ∧ (∀ ev, ev ∈ trace (parse_lines_log ragged_log (Some Task_new)) →
       ∃ ix, ev = diagnostic ix)
  ∧ (∀ ix, diagnostic ix ∈ trace (parse_lines_log ragged_log (Some Task_new))
       ↔ ∃ line, readlines ragged_log !! ix = Some line
           ∧ length (tokenize line) < 4).
Proof. apply (reported_lines ragged_log Task_new). discriminate. Defined.

(** ** What [parse_lines_log] leaves alone *)

(** X5: on a file that is not empty, [parse_lines_log] returns the record
    it was given with the session keys [start_time] and [end_time] set and
    nothing else changed: every other session key and the trial, position,
    head-direction and sync streams are as they were. *)
Theorem parse_lines_log_frame (file : string) (t : Task) :
  file ≠ EmptyString →
  ∃ t', outcome (parse_lines_log file (Some t)) = Ok (Some t')
    ∧ is_Some (session t' !! "start_time")
    ∧ is_Some (session t' !! "end_time")
    ∧ (∀ key, key ≠ "start_time" → key ≠ "end_time" →
         session t' !! key = session t !! key)
    ∧ trial t' = trial t ∧ position t' = position t
    ∧ head_direction t' = head_direction t
    ∧ sync_behavioral t' = sync_behavioral t.
Proof.
  intros Hne. destruct (readlines_head_last file Hne)
    as (first & final & Hfirst & Hfinal).
  rewrite (parse_lines_log_given file t first final) by done.
  eexists. split; [done|]. simpl.
  rewrite lookup_insert_ne, !lookup_insert_eq by done.
  split; [by eexists|]. split; [by eexists|]. split; [|done].
  intros key Hs He. by rewrite !lookup_insert_ne.
Qed.

Lemma parse_lines_log_frame_witness :
  ∃ t', outcome (parse_lines_log example_log (Some Task_new)) = Ok (Some t')
    ∧ is_Some (session t' !! "start_time")
    ∧ is_Some (session t' !! "end_time")
    ∧ (∀ key, key ≠ "start_time" → key ≠ "end_time" →
         session t' !! key = session Task_new !! key)
    ∧ trial t' = trial Task_new ∧ position t' = position Task_new
    ∧ head_direction t' = head_direction Task_new
    ∧ sync_behavioral t' = sync_behavioral Task_new.
Proof. apply (parse_lines_log_frame example_log Task_new). discriminate. Defined.

(** X6: parsing a log file again into the record that a first parse
    returned changes nothing: the second parse prints the same diagnostics
    and returns the same record. *)
Theorem parse_lines_log_again (file : string) (t t' : Task)
    (tr : list event) :
  parse_lines_log file (Some t) = (tr, Ok (Some t')) →
  parse_lines_log file (Some t') = (tr, Ok (Some t')).
Proof.
  intros Hrun. destruct file as [|c file]; [done|].
  destruct (readlines_head_last (String c file))
    as (first & final & Hfirst & Hfinal); [done|].
  rewrite (parse_lines_log_given _ t first final) in Hrun by done.
  rewrite (parse_lines_log_given _ t' first final) by done.
  simplify_eq. do 3 f_equal. unfold with_session_times, with_session. simpl.
  f_equal. apply map_eq. intros key.
  destruct (decide (key = "end_time")) as [->|He];
    [by rewrite !lookup_insert_eq|].
  rewrite !(lookup_insert_ne _ "end_time") by done.
  destruct (decide (key = "start_time")) as [->|Hs];
    [by rewrite !lookup_insert_eq|].
  by rewrite !lookup_insert_ne by done.
Qed.

Lemma parse_lines_log_again_witness :
  parse_lines_log ragged_log
    (Some (with_session_times "7" (String LF EmptyString) Task_new))
  = ([diagnostic 0; diagnostic 2],
     Ok (Some (with_session_times "7" (String LF EmptyString) Task_new))).
Proof.
  apply (parse_lines_log_again ragged_log Task_new). by vm_compute.
Defined.

(** ** [parse_lines_sync]: lines and keys that are not there *)

Lemma sync_append_IndexError (t : Task) (key : string)
    (tokens : list string) (i : nat) (stream : list string) :
  sync_behavioral t !! key = Some stream → tokens !! i = None →
  sync_append (Some t) key tokens i = raise IndexError.
Proof.
  intros Hkey Hi. unfold sync_append, py_attr, py_getitem.
  by rewrite bind_mret, Hkey, bind_mret, (py_index_None _ i).
Qed.

Lemma sync_append_KeyError (t : Task) (key : string)
    (tokens : list string) (i : nat) :
  sync_behavioral t !! key = None →
  sync_append (Some t) key tokens i = raise KeyError.
Proof.
  intros Hkey. unfold sync_append, py_attr, py_getitem.
  by rewrite bind_mret, Hkey.
Qed.

Lemma parse_sync_loop_app (lines1 lines2 : list string)
    (task : option Task) :
  parse_sync_loop (lines1 ++ lines2) task
  = parse_sync_loop lines1 task ≫= parse_sync_loop lines2.
Proof.
  revert task. induction lines1 as [|line rest IH]; intros task;
    cbn [parse_sync_loop app].
  - by rewrite bind_mret.
  - rewrite bind_assoc.
    destruct (parse_sync_line line task) as [tr [task'|e]]; [|done].
    by rewrite !bind_Ok, IH.
Qed.

Lemma parse_sync_line_exact (line : string) (t : Task)
    (ts fs os : list string) :
  sync_streams t ts fs os →
  3 ≤ length (tokenize line) →
  parse_sync_line line (Some t)
  = ([], Ok (Some (with_sync_behavioral
                     (<["on_off" := os ++ [field 2 line]]>
                        (<["frame" := fs ++ [field 1 line]]>
                           (<["time" := ts ++ [field 0 line]]>
                              (sync_behavioral t)))) t))).
Proof.
  intros (Ht & Hf & Ho) Hlen. unfold parse_sync_line, field.
  destruct (tokenize line) as [|v0 [|v1 [|v2 vs]]]; simpl in Hlen; try lia.
  cbv zeta.
  rewrite (sync_append_Some _ _ _ _ ts v0), bind_mret by done.
  rewrite (sync_append_Some _ _ _ _ fs v1), bind_mret
    by (by simpl; rewrite ?lookup_insert_ne).
  by rewrite (sync_append_Some _ _ _ _ os v2)
    by (by simpl; rewrite ?lookup_insert_ne).
Qed.

Lemma parse_sync_line_short (line : string) (t : Task)
    (ts fs os : list string) :
  sync_streams t ts fs os →
  length (tokenize line) < 3 →
  parse_sync_line line (Some t) = ([], Raise IndexError).
Proof.
  intros (Ht & Hf & Ho) Hlen. unfold parse_sync_line.
  destruct (str_split_cons TAB (drop_last (remove_cr line)))
    as (v0 & vs & Htok).
  change (str_split TAB (drop_last (remove_cr line)))
    with (tokenize line) in Htok.
  rewrite Htok in *. cbv zeta.
  rewrite (sync_append_Some _ _ _ _ ts v0), bind_mret by done.
  destruct vs as [|v1 vs].
  { rewrite (sync_append_IndexError _ _ _ _ fs); [done| |done].
    by simpl; rewrite lookup_insert_ne. }
  rewrite (sync_append_Some _ _ _ _ fs v1), bind_mret
    by (by simpl; rewrite ?lookup_insert_ne).
  destruct vs as [|v2 vs]; [|simpl in Hlen; lia].
  rewrite (sync_append_IndexError _ _ _ _ os); [done| |done].
  by simpl; rewrite !lookup_insert_ne.
Qed.

(** X7: [parse_lines_sync] does not check its lines.  On a sync file in
    which some line has fewer than three tokens, and every line before it
    has at least three, it raises [IndexError] at that line; no record is
    returned, whatever follows the line. *)
Theorem sync_short_line_raises (file : string) (t : Task)
    (ts fs os : list string) (before after : list string) (line : string) :
  sync_streams t ts fs os →
  readlines file = before ++ line :: after →
  Forall (λ l, 3 ≤ length (tokenize l)) before →
  length (tokenize line) < 3 →
  parse_lines_sync file (Some t) = ([], Raise IndexError).
Proof.
  intros Hstreams Hlines Hbefore Hshort.
  unfold parse_lines_sync, Task_truthy. cbn [negb]. cbv zeta iota.
  rewrite Hlines, parse_sync_loop_app.
  destruct (parse_sync_loop_spec before t ts fs os)
    as (t1 & -> & Hstreams1 & _); [done..|].
  rewrite bind_Ok. cbn [parse_sync_loop].
  by rewrite (parse_sync_line_short line t1 _ _ _ Hstreams1 Hshort).
Qed.

Lemma sync_short_line_raises_witness :
  parse_lines_sync (row ["10"; "1"; "on"] +:+ row ["20"; "2"]
                    +:+ row ["30"; "3"; "on"]) (Some Task_new)
  = ([], Raise IndexError).
Proof.
  apply (sync_short_line_raises _ Task_new [] [] []
           [row ["10"; "1"; "on"]] [row ["30"; "3"; "on"]] (row ["20"; "2"])).
  - repeat split; reflexivity.
  - reflexivity.
  - vm_compute. repeat constructor.
  - vm_compute. lia.
Defined.

(** X8: [parse_lines_sync] looks each stream up in the record before it
    looks at the tokens.  On a file that is not empty, a record without
    the [time] or the [frame] stream makes it raise [KeyError] at the
    first line, and so does a record without the [on_off] stream when the
    first line has at least two tokens. *)
Theorem sync_missing_stream_raises (file : string) (t : Task)
    (first : string) :
  head (readlines file) = Some first →
  sync_behavioral t !! "time" = None
  ∨ sync_behavioral t !! "frame" = None
  ∨ (sync_behavioral t !! "on_off" = None ∧ 2 ≤ length (tokenize first)) →
  parse_lines_sync file (Some t) = ([], Raise KeyError).
Proof.
  intros Hfirst Hmissing.
  unfold parse_lines_sync, Task_truthy. cbn [negb]. cbv zeta iota.
  destruct (readlines file) as [|line rest]; simplify_eq/=.
  cut (parse_sync_line first (Some t) = ([], Raise KeyError));
    [by intros ->|].
  unfold parse_sync_line. cbv zeta.
  destruct (sync_behavioral t !! "time") as [ts|] eqn:Ht;
    [|by rewrite sync_append_KeyError].
  destruct (str_split_cons TAB (drop_last (remove_cr first)))
    as (v0 & vs & Htok).
  change (str_split TAB (drop_last (remove_cr first)))
    with (tokenize first) in Htok.
  rewrite Htok in *.
  rewrite (sync_append_Some _ _ _ _ ts v0), bind_mret by done.
  destruct (sync_behavioral t !! "frame") as [fs|] eqn:Hf.
  2:{ rewrite sync_append_KeyError; [done|].
      by simpl; rewrite lookup_insert_ne. }
  destruct Hmissing as [?|[?|[Ho Hlen]]]; [done..|].
  destruct vs as [|v1 vs]; [simpl in Hlen; lia|].
  rewrite (sync_append_Some _ _ _ _ fs v1), bind_mret
    by (by simpl; rewrite ?lookup_insert_ne).
  rewrite sync_append_KeyError; [done|].
  by simpl; rewrite !lookup_insert_ne.
Qed.

Lemma sync_missing_stream_raises_witness :
  parse_lines_sync example_sync
    (Some (with_sync_behavioral {[ "time" := []; "frame" := [] ]} Task_new))
  = ([], Raise KeyError).
Proof.
  apply (sync_missing_stream_raises example_sync _ (row ["10"; "1"; "on"])).
  - reflexivity.
  - right. right. split; [reflexivity|]. vm_compute. lia.
Defined.

(** ** What [parse_lines_sync] leaves alone *)

Lemma parse_sync_loop_frame (lines : list string) (t : Task)
    (ts fs os : list string) :
  sync_streams t ts fs os →
  Forall (λ line, 3 ≤ length (tokenize line)) lines →
  ∃ t' ts' fs' os',
    parse_sync_loop lines (Some t) = ([], Ok (Some t'))
    ∧ sync_streams t' ts' fs' os'
    ∧ length ts' = length ts + length lines
    ∧ length fs' = length fs + length lines
    ∧ length os' = length os + length lines
    ∧ ∀ key, key ≠ "time" → key ≠ "frame" → key ≠ "on_off" →
        sync_behavioral t' !! key = sync_behavioral t !! key.
Proof.
  intros Hstreams Hall. revert t ts fs os Hstreams.
  induction Hall as [|line rest Hline _ IH]; intros t ts fs os Hstreams.
  - exists t, ts, fs, os. split; [done|]. split; [done|].
    cbn [length]. rewrite !Nat.add_0_r. by repeat (split; [done|]).
  - destruct (parse_sync_line_spec line t ts fs os)
      as (t1 & Hrun & Hstreams1 & _); [done..|].
    pose proof (parse_sync_line_exact line t ts fs os Hstreams Hline)
      as Hexact.
    rewrite Hrun in Hexact. injection Hexact as Ht1.
    destruct (IH t1 _ _ _ Hstreams1)
      as (t2 & ts' & fs' & os' & Hloop & Hstreams2 & Hts & Hfs & Hos & Hkeys).
    exists t2, ts', fs', os'. cbn [parse_sync_loop].
    rewrite Hrun, bind_Ok, Hloop. split; [done|]. split; [done|].
    rewrite length_app in Hts, Hfs, Hos. cbn [length] in *.
    split; [lia|]. split; [lia|]. split; [lia|].
    intros key Ht Hf Ho. rewrite Hkeys by done. subst t1. simpl.
    by rewrite !lookup_insert_ne.
Qed.

(** X9: on a sync file whose lines all have at least three tokens,
    [parse_lines_sync] changes nothing of the record but the three sync
    streams: the session, the trial, position and head-direction streams
    and every other key of the sync container are as they were.  It keeps
    the three streams in step: if they had the same length before, they
    have the same length after. *)
Theorem parse_lines_sync_frame (file : string) (t : Task)
    (ts fs os : list string) :
  sync_streams t ts fs os →
  Forall (λ line, 3 ≤ length (tokenize line)) (readlines file) →
  ∃ t' ts' fs' os',
    parse_lines_sync file (Some t) = ([], Ok (Some t'))
    ∧ sync_streams t' ts' fs' os'
    ∧ session t' = session t ∧ trial t' = trial t
    ∧ position t' = position t ∧ head_direction t' = head_direction t
    ∧ (∀ key, key ≠ "time" → key ≠ "frame" → key ≠ "on_off" →
         sync_behavioral t' !! key = sync_behavioral t !! key)
    ∧ (length ts = length fs → length fs = length os →
       length ts' = length fs' ∧ length fs' = length os').
Proof.
  intros Hstreams Hall.
  destruct (parse_sync_loop_frame (readlines file) t ts fs os)
    as (t' & ts' & fs' & os' & Hloop & Hstreams' & Hts & Hfs & Hos & Hkeys);
    [done..|].
  destruct (parse_sync_loop_spec (readlines file) t ts fs os)
    as (t'' & Hloop' & _ & Hs & Htr & Hp & Hh); [done..|].
  rewrite Hloop in Hloop'. simplify_eq.
  exists t'', ts', fs', os'. do 7 (split; [done|]). lia.
Qed.

Lemma parse_lines_sync_frame_witness :
  ∃ t' ts' fs' os',
    parse_lines_sync example_sync (Some Task_new) = ([], Ok (Some t'))
    ∧ sync_streams t' ts' fs' os'
    ∧ session t' = session Task_new ∧ trial t' = trial Task_new
    ∧ position t' = position Task_new
    ∧ head_direction t' = head_direction Task_new
    ∧ (∀ key, key ≠ "time" → key ≠ "frame" → key ≠ "on_off" →
         sync_behavioral t' !! key = sync_behavioral Task_new !! key)
    ∧ (length (@nil string) = length (@nil string) →
       length (@nil string) = length (@nil string) →
       length ts' = length fs' ∧ length fs' = length os').
Proof.
  apply (parse_lines_sync_frame example_sync Task_new [] [] []).
  - repeat split; reflexivity.
  - vm_compute. repeat constructor.
Defined.

(** ** The two parsers on one record *)

Lemma bind_Ok_inv {A B} (m : M A) (k : A → M B) (tr : list event) (b : B) :
  m ≫= k = (tr, Ok b) →
  ∃ tr1 a tr2, m = (tr1, Ok a) ∧ k a = (tr2, Ok b) ∧ tr = tr1 ++ tr2.
Proof.
  destruct m as [tr1 [a|e]]; [|done]. rewrite bind_Ok.
  destruct (k a) as [tr2 r] eqn:Hk. cbn [trace outcome fst snd].
  intros [= <- ->]. by exists tr1, a, tr2.
Qed.

Lemma sync_append_session (s : gmap string string) (t t' : Task)
    (key : string) (tokens : list string) (i : nat) (tr : list event) :
  sync_append (Some t) key tokens i = (tr, Ok (Some t')) →
  sync_append (Some (with_session s t)) key tokens i
  = (tr, Ok (Some (with_session s t'))).
Proof.
  unfold sync_append, py_attr, py_getitem. rewrite !bind_mret. simpl.
  destruct (sync_behavioral t !! key) as [stream|]; [|done].
  rewrite !bind_mret.
  destruct (tokens !! i) as [v|] eqn:Hi;
    [|by rewrite (py_index_None _ i)].
  rewrite (py_index_Some _ i v), !bind_mret by done.
  by intros [= <- <-].
Qed.

Lemma sync_append_not_None (t : Task) (key : string)
    (tokens : list string) (i : nat) (tr : list event) :
  sync_append (Some t) key tokens i ≠ (tr, Ok None).
Proof.
  unfold sync_append, py_attr, py_getitem. rewrite !bind_mret.
  destruct (sync_behavioral t !! key) as [stream|]; [|done].
  rewrite !bind_mret.
  destruct (tokens !! i) as [v|] eqn:Hi;
    [|by rewrite (py_index_None _ i)].
  by rewrite (py_index_Some _ i v), !bind_mret.
Qed.

Lemma sync_append_None (key : string) (tokens : list string) (i : nat) :
  sync_append None key tokens i = raise AttributeError.
Proof. done. Qed.

Lemma parse_sync_line_session (s : gmap string string) (t t' : Task)
    (line : string) (tr : list event) :
  parse_sync_line line (Some t) = (tr, Ok (Some t')) →
  parse_sync_line line (Some (with_session s t))
  = (tr, Ok (Some (with_session s t'))).
Proof.
  unfold parse_sync_line. cbv zeta.
  intros (tr1 & [t1|] & tr2 & H1 & H2 & ->)%bind_Ok_inv;
    [|by apply sync_append_not_None in H1].
  apply bind_Ok_inv in H2 as (tr3 & [t2|] & tr4 & H2 & H3 & ->);
    [|by apply sync_append_not_None in H2].
  rewrite (sync_append_session s t t1 _ _ _ tr1), bind_Ok by done.
  rewrite (sync_append_session s t1 t2 _ _ _ tr3), bind_Ok by done.
  by rewrite (sync_append_session s t2 t' _ _ _ tr4).
Qed.

Lemma parse_sync_line_not_None (t : Task) (line : string)
    (tr : list event) :
  parse_sync_line line (Some t) ≠ (tr, Ok None).
Proof.
  unfold parse_sync_line. cbv zeta.
  intros (tr1 & [t1|] & tr2 & H1 & H2 & ->)%bind_Ok_inv;
    [|by apply sync_append_not_None in H1].
  apply bind_Ok_inv in H2 as (tr3 & [t2|] & tr4 & H2 & H3 & ->);
    [|by apply sync_append_not_None in H2].
  by apply sync_append_not_None in H3.
Qed.

Lemma parse_sync_loop_session (s : gmap string string) (lines : list string)
    (t t' : Task) (tr : list event) :
  parse_sync_loop lines (Some t) = (tr, Ok (Some t')) →
  parse_sync_loop lines (Some (with_session s t))
  = (tr, Ok (Some (with_session s t'))).
Proof.
  revert t tr. induction lines as [|line rest IH]; intros t tr;
    cbn [parse_sync_loop].
  - by intros [= <- <-].
  - intros (tr1 & [t1|] & tr2 & H1 & H2 & ->)%bind_Ok_inv.
    + rewrite (parse_sync_line_session s t t1 line tr1), bind_Ok by done.
      by rewrite (IH t1 tr2).
    + by apply parse_sync_line_not_None in H1.
Qed.

Lemma with_session_id (t : Task) : with_session (session t) t = t.
Proof. by destruct t. Qed.

(** X10: the two parsers do not interfere.  When the log file and the sync
    file each parse into a record, parsing the sync file into the result
    of the log parse and parsing the log file into the result of the sync
    parse give one and the same record, with the same diagnostics. *)
Theorem log_and_sync_commute (log sync : string) (t t1 t2 : Task)
    (tr : list event) :
  parse_lines_log log (Some t) = (tr, Ok (Some t1)) →
  parse_lines_sync sync (Some t) = ([], Ok (Some t2)) →
  ∃ t', parse_lines_sync sync (Some t1) = ([], Ok (Some t'))
    ∧ parse_lines_log log (Some t2) = (tr, Ok (Some t'))
    ∧ session t' = session t1
    ∧ sync_behavioral t' = sync_behavioral t2.
Proof.
  intros Hlog Hsync. destruct log as [|c log]; [done|].
  destruct (readlines_head_last (String c log))
    as (first & final & Hfirst & Hfinal); [done|].
  rewrite (parse_lines_log_given _ t first final) in Hlog by done.
  injection Hlog as <- <-.
  unfold parse_lines_sync, Task_truthy in *. cbn [negb] in *.
  cbv zeta iota in *.
  assert (session t2 = session t) as Hsession.
  { pose proof (parse_sync_loop_session (session t) _ _ _ _ Hsync) as Hs.
    rewrite with_session_id, Hsync in Hs. injection Hs as Hs.
    by rewrite Hs. }
  exists (with_session_times (leading_field first) (leading_field final) t2).
  split; [|split; [|split]].
  - unfold with_session_times. rewrite Hsession.
    by apply parse_sync_loop_session.
  - by rewrite (parse_lines_log_given _ t2 first final).
  - simpl. by rewrite Hsession.
  - done.
Qed.

Lemma log_and_sync_commute_witness :
  ∃ t', parse_lines_sync example_sync
          (Some (with_session_times "7" (String LF EmptyString) Task_new))
        = ([], Ok (Some t'))
    ∧ parse_lines_log ragged_log
        (Some (with_sync_behavioral
                 {[ "time" := ["10"; "20"; "30"]; "frame" := ["1"; "2"; "3"];
                    "on_off" := ["on"; "off"; "on"] ]} Task_new))
      = ([diagnostic 0; diagnostic 2], Ok (Some t'))
    ∧ session t'
      = session (with_session_times "7" (String LF EmptyString) Task_new)
    ∧ sync_behavioral t'
      = {[ "time" := ["10"; "20"; "30"]; "frame" := ["1"; "2"; "3"];
           "on_off" := ["on"; "off"; "on"] ]}.
Proof.
  apply (log_and_sync_commute ragged_log example_sync Task_new).
  - by vm_compute.
  - by vm_compute.
Defined.

(** ** A sync file in two parts *)

Lemma universal_newlines_cons2 (c c' : ascii) (s : string) :
  universal_newlines (String c (String c' s))
  = if Ascii.eqb c CR
    then String LF (if Ascii.eqb c' LF then universal_newlines s
                    else universal_newlines (String c' s))
    else String c (universal_newlines (String c' s)).
Proof. done. Qed.

Lemma universal_newlines_app_LF (body rest : string) :
  universal_newlines (snoc body LF +:+ rest)
  = universal_newlines (snoc body LF) +:+ universal_newlines rest.
Proof.
  revert rest.
  cut ((∀ rest, universal_newlines (snoc body LF +:+ rest)
                = universal_newlines (snoc body LF) +:+ universal_newlines rest)
       ∧ ∀ c rest, universal_newlines (snoc (String c body) LF +:+ rest)
                   = universal_newlines (snoc (String c body) LF)
                     +:+ universal_newlines rest);
    [by intros [? _]|].
  induction body as [|c' body [IHb IHc]].
  - split; [done|]. intros c rest.
    change (snoc (String c EmptyString) LF +:+ rest)
      with (String c (String LF rest)).
    change (snoc (String c EmptyString) LF)
      with (String c (String LF EmptyString)).
    rewrite !universal_newlines_cons2. by destruct (Ascii.eqb c CR).
  - split; [apply IHc|]. intros c rest.
    change (snoc (String c (String c' body)) LF +:+ rest)
      with (String c (String c' (snoc body LF +:+ rest))).
    change (snoc (String c (String c' body)) LF)
      with (String c (String c' (snoc body LF))).
    rewrite !universal_newlines_cons2.
    change (String c' (snoc body LF +:+ rest))
      with (snoc (String c' body) LF +:+ rest).
    change (String c' (snoc body LF)) with (snoc (String c' body) LF).
    rewrite IHb, IHc.
    by destruct (Ascii.eqb c CR), (Ascii.eqb c' LF).
Qed.

Lemma universal_newlines_snoc_LF (body : string) :
  ∃ body', universal_newlines (snoc body LF) = snoc body' LF.
Proof.
  cut ((∃ body', universal_newlines (snoc body LF) = snoc body' LF)
       ∧ ∀ c, ∃ body',
           universal_newlines (snoc (String c body) LF) = snoc body' LF);
    [by intros [? _]|].
  induction body as [|c' body [IHb IHc]].
  - split; [by exists EmptyString|]. intros c.
    change (snoc (String c EmptyString) LF)
      with (String c (String LF EmptyString)).
    rewrite universal_newlines_cons2.
    destruct (Ascii.eqb c CR);
      [by exists EmptyString|by exists (String c EmptyString)].
  - split; [apply IHc|]. intros c.
    change (snoc (String c (String c' body)) LF)
      with (String c (String c' (snoc body LF))).
    rewrite universal_newlines_cons2.
    change (String c' (snoc body LF)) with (snoc (String c' body) LF).
    destruct IHb as [b1 ->], (IHc c') as [b2 ->].
    destruct (Ascii.eqb c CR); [destruct (Ascii.eqb c' LF)|].
    + by exists (String LF b1).
    + by exists (String LF b2).
    + by exists (String c b2).
Qed.

Lemma split_keepends_app_LF (body rest : string) :
  split_keepends (snoc body LF +:+ rest)
  = split_keepends (snoc body LF) ++ split_keepends rest.
Proof.
  induction body as [|c body IH]; [done|].
  change (snoc (String c body) LF +:+ rest)
    with (String c (snoc body LF +:+ rest)).
  change (snoc (String c body) LF) with (String c (snoc body LF)).
  cbn [split_keepends]. rewrite IH.
  destruct (Ascii.eqb c LF); [done|].
  assert (∃ l ls, split_keepends (snoc body LF) = l :: ls) as (l & ls & ->);
    [|done].
  destruct body as [|c' body]; [by eexists _, _|].
  change (snoc (String c' body) LF) with (String c' (snoc body LF)).
  cbn [split_keepends]. destruct (Ascii.eqb c' LF); [by eauto|].
  destruct (split_keepends (snoc body LF)); eauto.
Qed.

Lemma readlines_app_LF (body rest : string) :
  readlines (snoc body LF +:+ rest)
  = readlines (snoc body LF) ++ readlines rest.
Proof.
  unfold readlines. rewrite universal_newlines_app_LF.
  destruct (universal_newlines_snoc_LF body) as [body' ->].
  apply split_keepends_app_LF.
Qed.

(** X11: parsing a sync file that continues another one which ends in a
    newline is parsing the first part and then the second part into the
    record the first parse returns: the same entries, the same exception
    if one is raised. *)
Theorem parse_lines_sync_concat (body rest : string) (task : option Task) :
  parse_lines_sync (snoc body LF +:+ rest) task
  = parse_lines_sync (snoc body LF) task ≫= parse_lines_sync rest.
Proof.
  unfold parse_lines_sync, Task_truthy. cbn [negb]. cbv zeta iota.
  by rewrite readlines_app_LF, parse_sync_loop_app.
Qed.

(** ** The order of the calls of the batch driver *)

Lemma pipeline_calls_convert (ss : list SESSION) (i : nat) (sess : SESSION) :
  pipeline_calls ss !! i = Some (ConvertData, sess) →
  ∃ j, i = S j ∧ pipeline_calls ss !! j = Some (PrepareData, sess).
Proof.
  revert i. induction ss as [|s ss IH]; intros i; [done|].
  change (pipeline_calls (s :: ss))
    with ((PrepareData, s) :: (ConvertData, s) :: pipeline_calls ss).
  destruct i as [|[|i]]; simpl.
  - intros [=].
  - intros [= ->]. by exists 0.
  - intros (j & -> & Hj)%IH. by exists (S (S j)).
Qed.

Section CallOrder.

Context (make_session_name : string → string → string → string)
  (EXPERIMENT_ : string) (ST : SETTINGS) (SK : SKIP)
  (subjects : list string) (sessions_of : string → list string)
  (converted : list string)
  (prepare_data convert_data' : SESSION → SETTINGS → M unit).

Local Abbreviation the_driver :=
  (run_all_conversions make_session_name EXPERIMENT_ ST SK subjects
     sessions_of converted prepare_data convert_data').
Local Abbreviation the_selected :=
  (selected make_session_name EXPERIMENT_ ST SK converted
     (all_sessions subjects sessions_of)).
Local Abbreviation the_pipeline := (pipeline ST prepare_data convert_data').

Lemma driver_calls_prefix :
  calls_of (trace the_driver) `prefix_of` pipeline_calls the_selected.
Proof.
  change (calls_of (trace the_driver)) with (obs the_driver).1.
  rewrite run_all_conversions_obs. apply for_each_pipeline_prefix.
Qed.

(** X12: the batch driver never converts a session that it has not
    prepared: every call of [convert_data] comes directly after the call
    of [prepare_data] for the same session. *)
Theorem convert_follows_prepare (i : nat) (sess : SESSION) :
  calls_of (trace the_driver) !! i = Some (ConvertData, sess) →
  ∃ j, i = S j ∧ calls_of (trace the_driver) !! j = Some (PrepareData, sess).
Proof.
  intros Hi. pose proof driver_calls_prefix as Hprefix.
  pose proof (prefix_lookup_Some _ _ _ _ Hi Hprefix) as Hsel.
  apply pipeline_calls_convert in Hsel as (j & -> & Hj).
  exists j. split; [done|].
  rewrite (prefix_lookup_lt _ (pipeline_calls the_selected) j);
    [done| |done].
  apply lookup_lt_Some in Hi. lia.
Qed.

Lemma for_each_pipeline_first_failure (before after : list SESSION)
    (sess : SESSION) (e : exn) :
  (∀ s, s ∈ before →
     outcome (prepare_data s ST) = Ok tt
     ∧ outcome (convert_data' s ST) = Ok tt) →
  outcome (prepare_data sess ST) = Raise e
  ∨ (outcome (prepare_data sess ST) = Ok tt
     ∧ outcome (convert_data' sess ST) = Raise e) →
  obs (for_each the_pipeline (before ++ sess :: after))
  = (pipeline_calls before
     ++ (PrepareData, sess)
        :: match outcome (prepare_data sess ST) with
           | Ok _ => [(ConvertData, sess)]
           | Raise _ => []
           end,
     Raise e).
Proof.
  intros Hall Hfail. revert Hall.
  induction before as [|s before IH]; intros Hall; cbn [app].
  - rewrite for_each_pipeline_cons.
    destruct Hfail as [->|[-> ->]]; done.
  - rewrite for_each_pipeline_cons, pipeline_calls_cons.
    destruct (Hall s (list_elem_of_here _ _)) as [Hp Hc].
    rewrite Hp, Hc, IH; [done|].
    intros s' Hs'. by apply Hall, list_elem_of_further.
Qed.

(** X13: the batch driver handles no exception.  When the sessions
    selected before some session run through and a stage of that session
    raises, be it [prepare_data] or [convert_data] and whatever the
    exception, the run ends with that very exception; the calls made are
    both calls for each earlier session, then [prepare_data] for the
    failing one and, only if that returned, its [convert_data].  Nothing
    is called for the sessions after it. *)
Theorem first_failure_ends_batch (before after : list SESSION)
    (sess : SESSION) (e : exn) :
  the_selected = before ++ sess :: after →
  (∀ s, s ∈ before →
     outcome (prepare_data s ST) = Ok tt
     ∧ outcome (convert_data' s ST) = Ok tt) →
  outcome (prepare_data sess ST) = Raise e
  ∨ (outcome (prepare_data sess ST) = Ok tt
     ∧ outcome (convert_data' sess ST) = Raise e) →
  outcome the_driver = Raise e
  ∧ calls_of (trace the_driver)
    = pipeline_calls before
      ++ (PrepareData, sess)
         :: match outcome (prepare_data sess ST) with
            | Ok _ => [(ConvertData, sess)]
            | Raise _ => []
            end.
Proof.
  intros Hsel Hbefore Hfail.
  pose proof (run_all_conversions_obs make_session_name EXPERIMENT_ ST SK
                subjects sessions_of converted prepare_data convert_data')
    as Hobs.
  rewrite Hsel, (for_each_pipeline_first_failure _ _ _ e) in Hobs by done.
  by injection Hobs as -> ->.
Qed.

End CallOrder.

Lemma convert_follows_prepare_witness :
  ∃ j, 3 = S j
    ∧ calls_of (trace (run_all_conversions demo_name "EXP" demo_settings
                         demo_skip demo_subjects demo_sessions demo_converted
                         demo_stage demo_stage)) !! j
      = Some (PrepareData, demo_second).
Proof.
  apply (convert_follows_prepare demo_name "EXP" demo_settings demo_skip
           demo_subjects demo_sessions demo_converted demo_stage demo_stage
           3 demo_second).
  reflexivity.
Defined.

Lemma first_failure_ends_batch_witness :
  outcome (run_all_conversions demo_name "EXP" demo_settings demo_skip
             demo_subjects demo_sessions demo_converted demo_failing_stage
             demo_stage)
  = Raise (OtherError "OSError")
  ∧ calls_of (trace (run_all_conversions demo_name "EXP" demo_settings
                       demo_skip demo_subjects demo_sessions demo_converted
                       demo_failing_stage demo_stage))
    = [(PrepareData, demo_first)].
Proof.
  apply (first_failure_ends_batch demo_name "EXP" demo_settings demo_skip
           demo_subjects demo_sessions demo_converted demo_failing_stage
           demo_stage [] [demo_second] demo_first (OtherError "OSError")).
  - by vm_compute.
  - intros s Hs. by apply elem_of_nil in Hs.
  - left. reflexivity.
Defined.

(** ** The listing of subjects *)

Lemma dict_set_keys {V} (key : string) (value : V) (d : list (string * V)) :
  (dict_set key value d).*1
  = if decide (key ∈ d.*1) then d.*1 else d.*1 ++ [key].
Proof.
  induction d as [|[k v] d IH]; [done|]. cbn [dict_set].
  destruct (String.eqb_spec k key) as [->|Hne]; rewrite !fmap_cons;
    cbn [fst].
  - rewrite decide_True; [done|]. apply list_elem_of_here.
  - rewrite IH. destruct (decide (key ∈ d.*1)) as [Hin|Hin].
    + rewrite decide_True; [done|]. by apply list_elem_of_further.
    + rewrite decide_False; [done|].
      intros [?|?]%elem_of_cons; congruence.
Qed.

Lemma dict_set_items {V} (key : string) (value : V) (d : list (string * V))
    (k : string) (v : V) :
  (k, v) ∈ dict_set key value d → (k = key ∧ v = value) ∨ (k, v) ∈ d.
Proof.
  induction d as [|[k' v'] d IH]; simpl.
  - intros [=]%list_elem_of_singleton. by left.
  - destruct (String.eqb_spec k' key) as [->|Hne].
    + intros [[=]|Hin]%elem_of_cons; [by left|].
      right. by apply list_elem_of_further.
    + intros [[=]|Hin]%elem_of_cons.
      * right. subst. apply list_elem_of_here.
      * destruct (IH Hin) as [?|?]; [by left|].
        right. by apply list_elem_of_further.
Qed.

Lemma all_sessions_invariant (sessions_of : string → list string)
    (subjects : list string) (acc : list (string * list string)) :
  NoDup acc.*1 →
  (∀ k v, (k, v) ∈ acc → v = sessions_of k) →
  let listing :=
    foldl (λ d subject, dict_set subject (sessions_of subject) d)
      acc subjects in
  NoDup listing.*1
  ∧ (∀ s, s ∈ listing.*1 ↔ s ∈ acc.*1 ∨ s ∈ subjects)
  ∧ (∀ k v, (k, v) ∈ listing → v = sessions_of k).
Proof.
  revert acc. induction subjects as [|subject rest IH]; intros acc Hnd Hval.
  - simpl. split; [done|]. split; [|done].
    intros s. rewrite elem_of_nil. tauto.
  - cbn [foldl]. cbv zeta.
    destruct (IH (dict_set subject (sessions_of subject) acc))
      as (Hnd' & Hkeys & Hval').
    + rewrite dict_set_keys. destruct (decide (subject ∈ acc.*1)); [done|].
      apply NoDup_app. split; [done|]. split; [|apply NoDup_singleton].
      intros s Hs ->%list_elem_of_singleton. done.
    + intros k v [[-> ->]|Hin]%dict_set_items; [done|by apply Hval].
    + split; [done|]. split; [|done].
      intros s. rewrite Hkeys, dict_set_keys, elem_of_cons.
      destruct (decide (subject ∈ acc.*1)) as [Hin|Hin].
      * split; [tauto|]. intros [?|[->|?]]; tauto.
      * rewrite elem_of_app, list_elem_of_singleton. tauto.
Qed.

(** X14: the listing that the batch driver builds holds every subject of
    the directory listing, each of them once, however often the directory
    listing names it, together with the sessions found for that subject;
    so no subject is run through twice. *)
Theorem listing_has_each_subject_once (subjects : list string)
    (sessions_of : string → list string) :
  NoDup (all_sessions subjects sessions_of).*1
  ∧ (∀ s, s ∈ (all_sessions subjects sessions_of).*1 ↔ s ∈ subjects)
  ∧ (∀ s ss, (s, ss) ∈ all_sessions subjects sessions_of →
       ss = sessions_of s).
Proof.
  destruct (all_sessions_invariant sessions_of subjects [])
    as (Hnd & Hkeys & Hval).
  - apply NoDup_nil_2.
  - intros k v Hin. by apply elem_of_nil in Hin.
  - split; [done|]. split; [|done].
    intros s. rewrite (Hkeys s). simpl. rewrite elem_of_nil. tauto.
Qed.

(** ** The banners of the batch driver *)

Lemma raises_in_call_bind (m : M unit) (k : unit → M unit) :
  raises_in_call m → (∀ u, raises_in_call (k u)) →
  raises_in_call (m ≫= k).
Proof.
  unfold raises_in_call. intros Hm Hk e.
  destruct m as [tr [u|e']].
  - rewrite bind_Ok. cbn [trace outcome fst snd]. intros He.
    destruct (Hk u e He) as (tr' & f & sess & inner & ->).
    exists (tr ++ tr'), f, sess, inner. by rewrite app_assoc.
  - rewrite bind_Raise. cbn [trace outcome fst snd]. intros [= <-].
    by apply (Hm e').
Qed.

Lemma raises_in_call_Ok (m : M unit) :
  outcome m = Ok tt → raises_in_call m.
Proof. unfold raises_in_call. intros -> e. done. Qed.

Lemma raises_in_call_call (f : callee) (sess : SESSION) (m : M unit) :
  raises_in_call (call f sess m).
Proof. intros e _. by exists [], f, sess, (trace m). Qed.

Lemma raises_in_call_for_each {A} (body : A → M unit) (xs : list A) :
  (∀ x, raises_in_call (body x)) → raises_in_call (for_each body xs).
Proof.
  intros Hbody. induction xs as [|x xs IH]; cbn [for_each].
  - by apply raises_in_call_Ok.
  - by apply raises_in_call_bind.
Qed.

Lemma bind_print_status {B} (verbose : bool) (msg : string) (level : nat)
    (k : unit → M B) :
  print_status verbose msg level ≫= k
  = (PrintStatus verbose msg level :: trace (k tt), outcome (k tt)).
Proof. apply bind_emit. Qed.

Section Banners.

Context (make_session_name : string → string → string → string)
  (EXPERIMENT_ : string) (ST : SETTINGS) (SK : SKIP)
  (subjects : list string) (sessions_of : string → list string)
  (converted : list string)
  (prepare_data convert_data' : SESSION → SETTINGS → M unit).

Local Abbreviation this_driver :=
  (run_all_conversions make_session_name EXPERIMENT_ ST SK subjects
     sessions_of converted prepare_data convert_data').
Local Abbreviation this_subject :=
  (run_subject make_session_name EXPERIMENT_ ST SK converted
     prepare_data convert_data').
Local Abbreviation this_session :=
  (run_session make_session_name EXPERIMENT_ ST SK converted
     prepare_data convert_data').

Lemma raises_in_call_session (subject session : string) :
  raises_in_call (this_session subject session).
Proof.
  unfold run_session. cbv zeta.
  destruct (bool_decide _); [by apply raises_in_call_Ok|].
  destruct (_ && _); [by apply raises_in_call_Ok|].
  unfold pipeline. apply raises_in_call_bind.
  - apply raises_in_call_call.
  - intros _. apply raises_in_call_call.
Qed.

Lemma raises_in_call_subject (item : string * list string) :
  raises_in_call (this_subject item).
Proof.
  destruct item as [subject sessions]. unfold run_subject.
  destruct (bool_decide _); [by apply raises_in_call_Ok|].
  apply raises_in_call_for_each, raises_in_call_session.
Qed.

(** X15: the batch driver opens every run with its [RUNNING ALL
    CONVERSIONS] status message, and closes it with the [FINISHED
    CONVERSIONS] message exactly when the run returns: a run that raises
    shows the failing call into the pipeline as the last thing it did. *)
Theorem banners_of_a_run :
  head (trace this_driver)
  = Some (PrintStatus (VERBOSE ST) (running_banner EXPERIMENT_) 0)
  ∧ (outcome this_driver = Ok tt
     ↔ last (trace this_driver)
       = Some (PrintStatus (VERBOSE ST) (finished_banner EXPERIMENT_) 0))
  ∧ (∀ e, outcome this_driver = Raise e →
       ∃ f sess inner, last (trace this_driver) = Some (Call f sess inner)).
Proof.
  unfold run_all_conversions. cbv zeta.
  fold (running_banner EXPERIMENT_). fold (finished_banner EXPERIMENT_).
  rewrite bind_print_status.
  pose proof (raises_in_call_for_each this_subject
                (all_sessions subjects sessions_of) raises_in_call_subject)
    as Hloop.
  destruct (for_each this_subject (all_sessions subjects sessions_of))
    as [tr [[]|e]].
  - rewrite bind_Ok. cbn [trace outcome fst snd print_status emit].
    split; [done|]. split; [|done].
    split; [|done]. intros _.
    by rewrite app_comm_cons, last_snoc.
  - rewrite bind_Raise. cbn [trace outcome fst snd].
    destruct (Hloop e) as (tr' & f & sess & inner & Htr); [done|].
    cbn [trace fst] in Htr. subst tr.
    split; [done|]. rewrite app_comm_cons, last_snoc.
    split; [split; intros [=]|].
    intros e' _. by exists f, sess, inner.
Qed.

End Banners.

(** ** Sessions that were converted before *)

Lemma for_each_ext {A} (body1 body2 : A → M unit) (xs : list A) :
  (∀ x, body1 x = body2 x) → for_each body1 xs = for_each body2 xs.
Proof.
  intros Hext. induction xs as [|x xs IH]; cbn [for_each]; [done|].
  by rewrite Hext, IH.
Qed.

(** X17: with [SKIP_ALREADY_RUN] unset the batch driver does not look at
    the files converted before: whatever the output directory holds, the
    run does the same, so a session that has an output file is run
    again. *)
Theorem converted_ignored_when_unset
    (make_session_name : string → string → string → string)
    (EXPERIMENT_ : string) (ST : SETTINGS) (SK : SKIP)
    (subjects : list string) (sessions_of : string → list string)
    (converted converted' : list string)
    (prepare_data convert_data' : SESSION → SETTINGS → M unit) :
  SKIP_ALREADY_RUN ST = false →
  run_all_conversions make_session_name EXPERIMENT_ ST SK subjects
    sessions_of converted prepare_data convert_data'
  = run_all_conversions make_session_name EXPERIMENT_ ST SK subjects
      sessions_of converted' prepare_data convert_data'.
Proof.
  intros Hflag. unfold run_all_conversions. cbv zeta.
  rewrite (for_each_ext
             (run_subject make_session_name EXPERIMENT_ ST SK converted
                prepare_data convert_data')
             (run_subject make_session_name EXPERIMENT_ ST SK converted'
                prepare_data convert_data')); [done|].
  intros [subject sessions]. unfold run_subject.
  destruct (bool_decide (subject ∈ SUBJECTS SK)); [done|].
  apply for_each_ext. intros session. unfold run_session. cbv zeta.
  by rewrite Hflag.
Qed.

Lemma converted_ignored_when_unset_witness :
  run_all_conversions demo_name "EXP" demo_settings_rerun demo_skip
    demo_subjects demo_sessions demo_converted demo_stage demo_stage
  = run_all_conversions demo_name "EXP" demo_settings_rerun demo_skip
      demo_subjects demo_sessions [] demo_stage demo_stage.
Proof.
  apply (converted_ignored_when_unset demo_name "EXP" demo_settings_rerun
           demo_skip demo_subjects demo_sessions demo_converted []
           demo_stage demo_stage).
  reflexivity.
Defined.
